(** * poll_git.py: a shallow embedding and its properties

    The script [bin/poll_git.py] searches GitHub for the repositories
    matching a keyword, follows the pagination of the search API, strips
    every repository record down to a fixed set of fields and prints a JSON
    report.

    The embedding keeps the shape of the script:
    - JSON values are the Python objects [json] decodes: [None], booleans,
      integers, floats, strings, lists and dictionaries with string keys;
    - Python exceptions are values of [exn], and the statements of the script
      run in a small state-and-exception monad [Prog] over the [World] (the
      HTTP requests issued so far and what was printed);
    - the search API is a parameter [upstream]: a function from the request
      history and the current request to a reply.

    Every reply is decoded into objects of its own, as [req.json()] does, so
    that no two replies share a list or a dictionary: the in-place updates
    of the script ([extend], [pop]) are then updates of the one value that
    holds the object, and the embedding passes that value along.  The
    interpreter's bound on the depth of recursion is left out: [main] nests
    at most ten calls of [_retrieve_data]. *)

From Equations Require Import Equations.
From stdpp Require Import gmap strings list fin_maps pretty.

Set Warnings "-register-all,-clear-no-such-hyp".
Open Scope Z_scope.

(** ** Values *)

(** The objects produced by [req.json()].  A float is never inspected by the
    script and is carried as the bit pattern of its IEEE-754 double. *)
Inductive json : Type :=
  | JNull
  | JBool (b : bool)
  | JInt (z : Z)
  | JFloat (bits : Z)
  | JStr (s : string)
  | JArr (l : list json)
  | JObj (m : gmap string json).

(** The exceptions the script can end with. *)
Inductive exn : Type :=
  | KeyError (key : string)
  | TypeError
  | AttributeError
  | ValueError
  | ConnectionError
  | SystemExit (status : Z).

Inductive Result (A : Type) : Type :=
  | Ok (a : A)
  | Raise (e : exn).
Arguments Ok {A} a.
Arguments Raise {A} e.

Definition is_Ok {A} (r : Result A) : Prop :=
  match r with Ok _ => True | Raise _ => False end.

Definition rbind {A B} (r : Result A) (k : A → Result B) : Result B :=
  match r with
  | Ok a => k a
  | Raise e => Raise e
  end.

(** ** Python operations on decoded JSON *)

Module Py.

(** [v[k]] for a string [k]: a dictionary looks the key up, a list or a
    string wants an integer index, the other objects have no
    [__getitem__]. *)
Definition getitem (v : json) (k : string) : Result json :=
  match v with
  | JObj m =>
      match m !! k with
      | Some x => Ok x
      | None => Raise (KeyError k)
      end
  | _ => Raise TypeError
  end.

(** [v.get(k, default)]: only a dictionary has the method. *)
Definition get (v : json) (k : string) (dflt : json) : Result json :=
  match v with
  | JObj m => Ok (default dflt (m !! k))
  | _ => Raise AttributeError
  end.

(** The one-character strings of a string, as iteration yields them. *)
Fixpoint chars (s : string) : list json :=
  match s with
  | EmptyString => []
  | String c s' => JStr (String c EmptyString) :: chars s'
  end.

(** [iter(v)]: a list yields its elements, a dictionary its keys (in an
    order Python leaves unspecified; the embedding takes the order of
    [map_to_list]), a string its characters; nothing else is iterable. *)
Definition iter (v : json) : Result (list json) :=
  match v with
  | JArr l => Ok l
  | JObj m => Ok (JStr <$> (map_to_list m).*1)
  | JStr s => Ok (chars s)
  | _ => Raise TypeError
  end.

(** The attribute lookup [v.extend]: only a list has it.  The result is the
    current content of the list. *)
Definition extend_of (v : json) : Result (list json) :=
  match v with
  | JArr l => Ok l
  | _ => Raise AttributeError
  end.

(** [d.pop(k)] on the content of a dictionary. *)
Definition pop (k : string) (d : gmap string json) : Result (gmap string json) :=
  match d !! k with
  | Some _ => Ok (delete k d)
  | None => Raise (KeyError k)
  end.

(** The dictionary [v] after a value stored under [k] was mutated in place
    into [x] (or after [v[k] = x]). *)
Definition store (v : json) (k : string) (x : json) : json :=
  match v with
  | JObj m => JObj (<[k := x]> m)
  | _ => v
  end.

End Py.

(** ** Globals *)

Definition BASE_URL : string := "https://api.github.com/search/repositories".

Definition DATA_KEYS : gset string :=
  {[ "id"; "name"; "description"; "language"; "created_at"; "html_url";
     "watchers_count"; "forks_count"; "owner" ]}.

Definition OWNER_KEYS : gset string := {[ "login"; "id"; "url" ]}.

(** ** The world: HTTP and standard output *)

(** The three values substituted into [QUALIFIERS]. *)
Record Request : Type := mkRequest {
  rq_keyw : string;
  rq_per_page : Z;
  rq_page : Z
}.

(** [BASE_URL + QUALIFIERS % (keyw, per_page, page)]. *)
Definition url (rq : Request) : string :=
  BASE_URL +:+ "?q=" +:+ rq_keyw rq
           +:+ "&sort=forks&order=desc&per_page=" +:+ pretty (rq_per_page rq)
           +:+ "&page=" +:+ pretty (rq_page rq).

(** What a GET comes back with: no reply at all ([requests.get] raises), a
    body that is not JSON ([req.json()] raises), or a decoded body. *)
Inductive Reply : Type :=
  | Unreachable
  | NotJson
  | Json (body : json).

(** The search API, or a mock of it: the reply to a request may depend on the
    requests made before it. *)
Definition Upstream : Type := list Request → Request → Reply.

(** A line written by [print]: plain text, or the text
    [json.dumps(doc, indent=indent)]. *)
Inductive Output : Type :=
  | Text (s : string)
  | JsonDumps (doc : json) (indent : Z).

Record World : Type := mkWorld {
  requests : list Request;
  stdout : list Output
}.

Definition Prog (A : Type) : Type := World → Result A * World.

Definition ret {A} (a : A) : Prog A := λ w, (Ok a, w).

Definition bind {A B} (p : Prog A) (k : A → Prog B) : Prog B :=
  λ w, match p w with
       | (Ok a, w') => k a w'
       | (Raise e, w') => (Raise e, w')
       end.

Definition lift {A} (r : Result A) : Prog A := λ w, (r, w).

Notation "'let*' x := p 'in' k" := (bind p (λ x, k))
  (at level 10, x name, p at level 100, k at level 200).

Definition print (o : Output) : Prog unit :=
  λ w, (Ok tt, mkWorld (requests w) (stdout w ++ [o])).

Definition sys_exit {A} (status : Z) : Prog A := lift (Raise (SystemExit status)).

(** The exit status of the process for the outcome of [main]. *)
Definition exit_status {A} (r : Result A) : Z :=
  match r with
  | Ok _ => 0
  | Raise (SystemExit status) => status
  | Raise _ => 1
  end.

Section Script.

Variable upstream : Upstream.

(** [requests.get(url)]: the request is recorded, then answered. *)
Definition requests_get (rq : Request) : Prog Reply :=
  λ w, let w' := mkWorld (requests w ++ [rq]) (stdout w) in
       match upstream (requests w) rq with
       | Unreachable => (Raise ConnectionError, w')
       | reply => (Ok reply, w')
       end.

(** [req.json()]. *)
Definition req_json (req : Reply) : Result json :=
  match req with
  | Json body => Ok body
  | _ => Raise ValueError
  end.

(** *** [_retrieve_data]

    In [r_json['items'].extend(_retrieve_data(...).get('items', []))]
    Python evaluates the subscript and the attribute [extend] before the
    argument, hence before the recursive call. *)
#[derive(equations=no, eliminator=no)]
Equations? _retrieve_data (keyw : string) (limit page : Z) : Prog json
  by wf (Z.to_nat limit) lt :=
  _retrieve_data keyw limit page :=
    let per_page := if decide (limit < 100) then limit else 100 in
    let* req := requests_get (mkRequest keyw per_page page) in
    let* r_json := lift (req_json req) in
    match decide (limit > 100) with
    | left _ =>
        let* items := lift (Py.getitem r_json "items") in
        let* old := lift (Py.extend_of items) in
        let* next := _retrieve_data keyw (limit - 100) (page + 1) in
        let* more := lift (Py.get next "items" (JArr [])) in
        let* new := lift (Py.iter more) in
        ret (Py.store r_json "items" (JArr (old ++ new)))
    | right _ => ret r_json
    end.
Proof. lia. Qed.

(** *** [_filter_dict]

    The dictionary is mutated in place and nothing is returned: the
    embedding returns the dictionary as the call leaves it.  The loop runs
    over a set, in an order Python leaves unspecified ([set_fold] takes
    the order of [elements]); [src_dict.keys()] exists on dictionaries
    only. *)
Definition _filter_dict (src_dict : json) (key_set : gset string) : Result json :=
  match src_dict with
  | JObj d =>
      rbind (set_fold (λ k acc, rbind acc (Py.pop k)) (Ok d) (dom d ∖ key_set))
            (λ d', Ok (JObj d'))
  | _ => Raise AttributeError
  end.

(** *** [main] *)

(** The body of the loop [for item in data['items']], as the state of
    [item] after it. *)
Definition filter_item (item : json) : Result json :=
  rbind (_filter_dict item DATA_KEYS) (λ item1,
  rbind (Py.getitem item1 "owner") (λ owner,
  rbind (_filter_dict owner OWNER_KEYS) (λ owner1,
  Ok (Py.store item1 "owner" owner1)))).

(** A [for] loop whose body mutates the element: it stops at the first
    exception. *)
Fixpoint for_each (body : json → Result json) (l : list json) : Result (list json) :=
  match l with
  | [] => Ok []
  | x :: l' =>
      rbind (body x) (λ x',
      rbind (for_each body l') (λ l'',
      Ok (x' :: l'')))
  end.

(** The whole loop, as the state of [data['items']] after it.  The elements
    of a list are the objects the list holds, so the list sees them
    mutated; the keys of a dictionary and the characters of a string are
    not dictionaries, and the body fails on the first of them. *)
Definition filter_items (items : json) : Result json :=
  rbind (Py.iter items) (λ elems,
  rbind (for_each filter_item elems) (λ elems',
  Ok (match items with JArr _ => JArr elems' | _ => items end))).

(** [main], from the parsed arguments on. *)
Definition main (keyword : string) (limit : Z) : Prog unit :=
  let* _ :=
    if decide (limit < 1 ∨ limit > 1000) then
      let* _ := print (Text ("ERROR: limit [" +:+ pretty limit
                               +:+ "] is not in the range 1-1000")) in
      sys_exit 1
    else ret tt in
  let* data := _retrieve_data keyword limit 1 in
  let* items := lift (Py.getitem data "items") in
  let* items' := lift (filter_items items) in
  let data := Py.store data "items" items' in
  let* total_count := lift (Py.getitem data "total_count") in
  let* repo_list := lift (Py.getitem data "items") in
  let json_dict : gmap string json :=
    {[ "keyword" := JStr keyword;
       "repository_limit" := JInt limit;
       "total_repositories" := total_count;
       "repo_list" := repo_list ]} in
  print (JsonDumps (JObj json_dict) 4).

End Script.

(** ** Upstreams to run the script against *)

(** The slice of [repos] a request asks for. *)
Definition page_items (repos : list json) (rq : Request) : list json :=
  let n := Z.to_nat (rq_per_page rq) in
  let p := Z.to_nat (rq_page rq - 1) in
  take n (drop (p * n) repos).

Definition page_body (repos : list json) (rq : Request) : gmap string json :=
  {[ "total_count" := JInt (Z.of_nat (length repos));
     "incomplete_results" := JBool false;
     "items" := JArr (page_items repos rq) ]}.

(** A search API that honours [per_page] and [page]: it holds [repos],
    sorted, and answers every request with the requested slice and the size
    of the whole result. *)
Definition serve (repos : list json) : Upstream :=
  λ _ rq, Json (JObj (page_body repos rq)).

(** What the API answers once the rate limit is reached. *)
Definition rate_limited : gmap string json :=
  {[ "message" := JStr "API rate limit exceeded";
     "documentation_url" := JStr "https://developer.github.com/v3/#rate-limiting" ]}.

(** The same API, serving pages up to [last_good] only. *)
Definition serve_until (last_good : Z) (repos : list json) : Upstream :=
  λ log rq,
    if decide (rq_page rq ≤ last_good) then serve repos log rq
    else Json (JObj rate_limited).

(** A mock with canned bodies: the n-th request gets the n-th body, whatever
    it asks for. *)
Definition scripted (bodies : list json) : Upstream :=
  λ log _,
    match bodies !! length log with
    | Some body => Json body
    | None => Unreachable
    end.

(** A repository record as the API sends it, cut down to what matters here:
    kept fields, dropped fields, and an owner with both. *)
Definition repo_fields (i : Z) : gmap string json :=
  {[ "id" := JInt i;
     "name" := JStr ("repo" +:+ pretty i);
     "forks_count" := JInt (1000 - i);
     "score" := JFloat 4607182418800017408;
     "private" := JBool false;
     "owner" := JObj {[ "login" := JStr "octocat";
                        "id" := JInt 1;
                        "url" := JStr "https://api.github.com/users/octocat";
                        "site_admin" := JBool false ]} ]}.

Definition repo (i : Z) : json := JObj (repo_fields i).

(** The records [from], ..., [from + n - 1]. *)
Definition repos_from (from : Z) (n : nat) : list json :=
  repo <$> seqZ from (Z.of_nat n).

Definition repos (n : nat) : list json := repos_from 1 n.

(** A record without owner. *)
Definition orphan : gmap string json :=
  {[ "id" := JInt 2; "name" := JStr "orphan" ]}.

(** Two canned pages, each with its own count. *)
Definition canned_page (total : Z) (items : list json) : gmap string json :=
  {[ "total_count" := JInt total;
     "incomplete_results" := JBool false;
     "items" := JArr items ]}.

Definition two_pages : list (gmap string json * list json) :=
  [ (canned_page 3 (repos_from 1 2), repos_from 1 2);
    (canned_page 4 (repos_from 3 1), repos_from 3 1) ].

(** [repo i] once it went through the filtering pass. *)
Definition repo_trimmed (i : Z) : json :=
  JObj {[ "id" := JInt i;
          "name" := JStr ("repo" +:+ pretty i);
          "forks_count" := JInt (1000 - i);
          "owner" := JObj {[ "login" := JStr "octocat";
                             "id" := JInt 1;
                             "url" := JStr "https://api.github.com/users/octocat" ]} ]}.

Definition w0 : World := mkWorld [] [].

(** The dictionary of the last dump on standard output, and its
    ['repo_list'] when that is a list. *)
Definition printed_report (w : World) : option (gmap string json) :=
  match last (stdout w) with
  | Some (JsonDumps (JObj doc) _) => Some doc
  | _ => None
  end.

Definition printed_repo_list (w : World) : list json :=
  match printed_report w ≫= (.!! "repo_list") with
  | Some (JArr l) => l
  | _ => []
  end.

(** * Vocabulary of the statements *)

(** The value of an outcome that is one. *)
Definition returned (r : Result json) : json :=
  match r with
  | Ok v => v
  | Raise _ => JNull
  end.

(** The entries of [d] whose key is in [K]. *)
Definition kept (K : gset string) (d : gmap string json) : gmap string json :=
  filter (λ kv, kv.1 ∈ K) d.

(** [item'] is [item] after the body of the loop: one [_filter_dict] with
    [DATA_KEYS] on the record, one with [OWNER_KEYS] on its owner. *)
Definition trimmed (item item' : json) : Prop :=
  ∃ m o m' o' : gmap string json,
    item = JObj m ∧ m !! "owner" = Some (JObj o) ∧
    _filter_dict (JObj m) DATA_KEYS = Ok (JObj m') ∧
    _filter_dict (JObj o) OWNER_KEYS = Ok (JObj o') ∧
    item' = JObj (<["owner" := JObj o']> m').

(** The world after one more request. *)
Definition logged (w : World) (rq : Request) : World :=
  mkWorld (requests w ++ [rq]) (stdout w).

(** [⌈a / b⌉] for positive [b]. *)
Definition ceil_div (a b : Z) : Z := (a + b - 1) / b.

(** The requests of a run that asks for [limit] results, starting at [page]:
    page numbers go up by one, every page asks for 100 results but the last,
    which asks for what remains. *)
Definition plan (keyw : string) (limit page : Z) : list Request :=
  (λ i, mkRequest keyw (Z.min 100 (limit - 100 * i)) (page + i))
    <$> seqZ 0 (Z.max 1 (ceil_div limit 100)).

(** The replies to a sequence of requests made one after the other. *)
Fixpoint replies (up : Upstream) (log rqs : list Request) : list Reply :=
  match rqs with
  | [] => []
  | rq :: rqs' => up log rq :: replies up (log ++ [rq]) rqs'
  end.

(** A run from [w] to [w'] printed nothing and issued a non-empty prefix of
    the requests [rqs], all of them if its outcome [r] is a value. *)
Definition issued_within {A} (rqs : list Request) (w w' : World) (r : Result A) : Prop :=
  stdout w' = stdout w ∧
  ∃ n : nat,
    (0 < n ≤ length rqs)%nat ∧
    requests w' = requests w ++ take n rqs ∧
    (is_Ok r → n = length rqs).

(** The request a call starts with. *)
Definition first_request (keyw : string) (limit page : Z) : Request :=
  mkRequest keyw (if decide (limit < 100) then limit else 100) page.

(** [reply] is a page of the search result: a dictionary [p.1] whose
    ['items'] is the list [p.2]. *)
Definition is_page (reply : Reply) (p : gmap string json * list json) : Prop :=
  reply = Json (JObj p.1) ∧ p.1 !! "items" = Some (JArr p.2).

(** The dictionary [main] prints. *)
Definition json_dict (keyword : string) (limit : Z) (total_count repo_list : json)
  : gmap string json :=
  {[ "keyword" := JStr keyword;
     "repository_limit" := JInt limit;
     "total_repositories" := total_count;
     "repo_list" := repo_list ]}.

(** What [main] makes of the retrieved [data]: the filtering pass and the
    final dictionary. *)
Definition build_report (keyword : string) (limit : Z) (data : json) : Result json :=
  rbind (Py.getitem data "items") (λ items,
  rbind (filter_items items) (λ items',
  let data := Py.store data "items" items' in
  rbind (Py.getitem data "total_count") (λ total_count,
  rbind (Py.getitem data "items") (λ repo_list,
  Ok (JObj (json_dict keyword limit total_count repo_list)))))).

Definition limit_error (limit : Z) : Output :=
  Text ("ERROR: limit [" +:+ pretty limit +:+ "] is not in the range 1-1000").

(** The outcome is not the one of [sys.exit]. *)
Definition no_exit {A} (r : Result A) : Prop :=
  ∀ status, r ≠ Raise (SystemExit status).

(** [record] has the keys of [item] that are in [DATA_KEYS], and its owner
    the keys of the owner of [item] that are in [OWNER_KEYS]: nothing else
    is left, nothing allowed is lost. *)
Definition allowed_keys_only (item record : json) : Prop :=
  ∃ m0 o0 m o : gmap string json,
    item = JObj m0 ∧ m0 !! "owner" = Some (JObj o0) ∧
    record = JObj m ∧ m !! "owner" = Some (JObj o) ∧
    dom m = dom m0 ∩ DATA_KEYS ∧
    dom o = dom o0 ∩ OWNER_KEYS ∧
    (DATA_KEYS ⊆ dom m0 → dom m = DATA_KEYS) ∧
    (OWNER_KEYS ⊆ dom o0 → dom o = OWNER_KEYS).

(** The number of results a sequence of requests asks for. *)
Definition asked (rqs : list Request) : Z :=
  foldr (λ rq n, rq_per_page rq + n) 0 rqs.

(** A string without the separator of query parameters. *)
Fixpoint plain (s : string) : Prop :=
  match s with
  | EmptyString => True
  | String c s' => String c "" ≠ "&" ∧ plain s'
  end.

(** An upstream that never sends JSON. *)
Definition garbled : Upstream := λ _ _, NotJson.

(** The fields of [repo i] once it went through the filtering pass. *)
Definition trimmed_fields (i : Z) : gmap string json :=
  {[ "id" := JInt i;
     "name" := JStr ("repo" +:+ pretty i);
     "forks_count" := JInt (1000 - i);
     "owner" := JObj {[ "login" := JStr "octocat";
                        "id" := JInt 1;
                        "url" := JStr "https://api.github.com/users/octocat" ]} ]}.

(** A reply without ['total_count'], and one whose ['items'] is [None]. *)
Definition no_count : gmap string json := {[ "items" := JArr [repo 1] ]}.

Definition null_items : gmap string json :=
  {[ "total_count" := JInt 0; "items" := JNull ]}.

(** * Properties *)

Arguments _filter_dict : simpl never.
Arguments filter_item : simpl never.

(** ** [_filter_dict] *)

Lemma lookup_kept K d k :
  kept K d !! k = if decide (k ∈ K) then d !! k else None.
Proof.
  unfold kept. rewrite map_lookup_filter.
  destruct (d !! k) as [x|] eqn:Hk; simpl.
  - case_decide; case_guard; simpl in *; done.
  - by case_decide.
Qed.

Lemma dom_kept K d : dom (kept K d) = dom d ∩ K.
Proof.
  apply set_eq. intros k.
  rewrite elem_of_intersection, !elem_of_dom, lookup_kept.
  case_decide; unfold is_Some; naive_solver.
Qed.

(** Popping the keys of [X] one after the other never raises when they are
    all keys of [d], and leaves the other entries of [d]. *)
Lemma pop_all (d : gmap string json) (X : gset string) :
  X ⊆ dom d →
  set_fold (λ k acc, rbind acc (Py.pop k)) (Ok d) X
  = Ok (filter (λ kv, kv.1 ∉ X) d).
Proof.
  revert X.
  apply (set_fold_ind_L
    (λ r (X : gset string), X ⊆ dom d → r = Ok (filter (λ kv, kv.1 ∉ X) d))).
  - intros _. f_equal. symmetry. apply map_filter_id. set_solver.
  - intros k X r Hk IH Hsub. rewrite IH by set_solver. simpl.
    assert (is_Some (d !! k)) as [x Hx] by (apply elem_of_dom; set_solver).
    unfold Py.pop.
    assert (filter (λ kv, kv.1 ∉ X) d !! k = Some x) as ->.
    { apply map_lookup_filter_Some. done. }
    f_equal. apply map_eq. intros j.
    destruct (decide (j = k)) as [->|Hne].
    + rewrite lookup_delete_eq. symmetry.
      apply map_lookup_filter_None. right. intros ? _. set_solver.
    + rewrite lookup_delete_ne by done.
      rewrite !map_lookup_filter.
      destruct (d !! j); simpl; [|done].
      repeat case_guard; simpl in *; try done; set_solver.
Qed.

Lemma filter_dict_kept (d : gmap string json) (K : gset string) :
  _filter_dict (JObj d) K = Ok (JObj (kept K d)).
Proof.
  unfold _filter_dict. rewrite pop_all by set_solver. simpl.
  do 2 f_equal. apply map_eq. intros k.
  rewrite lookup_kept, map_lookup_filter.
  destruct (d !! k) as [x|] eqn:Hk; simpl.
  - assert (k ∈ dom d) by (apply elem_of_dom; eauto).
    case_decide; case_guard; simpl in *; try done; set_solver.
  - by case_decide.
Qed.

Lemma filter_dict_Ok v K v' :
  _filter_dict v K = Ok v' → ∃ d, v = JObj d ∧ v' = JObj (kept K d).
Proof.
  destruct v; try discriminate.
  rewrite filter_dict_kept. intros [= <-]. eauto.
Qed.

(** C8: [_filter_dict] computes the intersection of the key set of the
    dictionary with [K], and a second application changes nothing. *)
Theorem filter_dict_idempotent (d : gmap string json) (K : gset string) :
  ∃ d' : gmap string json,
    _filter_dict (JObj d) K = Ok (JObj d') ∧
    dom d' = dom d ∩ K ∧
    _filter_dict (JObj d') K = Ok (JObj d').
Proof.
  exists (kept K d). split; [apply filter_dict_kept|].
  split; [apply dom_kept|].
  rewrite filter_dict_kept. do 2 f_equal.
  apply map_eq. intros k. rewrite !lookup_kept. by case_decide.
Qed.

(** ** The filtering pass of [main] *)

Lemma owner_in_DATA_KEYS : "owner" ∈ DATA_KEYS.
Proof. unfold DATA_KEYS. set_solver. Qed.

Lemma filter_item_Ok item item' :
  filter_item item = Ok item' → trimmed item item'.
Proof.
  unfold filter_item. intros H.
  destruct (_filter_dict item DATA_KEYS) as [item1|] eqn:H1; [|done].
  apply filter_dict_Ok in H1 as (m & -> & ->). simpl in H.
  rewrite lookup_kept, decide_True in H by apply owner_in_DATA_KEYS.
  destruct (m !! "owner") as [owner|] eqn:Ho; [|done]. simpl in H.
  destruct (_filter_dict owner OWNER_KEYS) as [owner1|] eqn:H2; [|done].
  apply filter_dict_Ok in H2 as (o & -> & ->). simpl in H.
  injection H as <-.
  exists m, o, (kept DATA_KEYS m), (kept OWNER_KEYS o).
  by rewrite !filter_dict_kept.
Qed.

Lemma for_each_Ok (body : json → Result json) l l' :
  for_each body l = Ok l' → Forall2 (λ x x', body x = Ok x') l l'.
Proof.
  revert l'. induction l as [|x l IH]; intros l'; simpl.
  - intros [= <-]. constructor.
  - destruct (body x) as [x'|] eqn:Hx; [|done]. simpl.
    destruct (for_each body l) as [l''|]; [|done]. simpl.
    intros [= <-]. constructor; auto.
Qed.

Lemma for_each_Forall2 (body : json → Result json) l l' :
  Forall2 (λ x x', body x = Ok x') l l' → for_each body l = Ok l'.
Proof.
  induction 1 as [|x x' l l' Hx _ IH]; simpl; [done|].
  by rewrite Hx, IH.
Qed.

(** The first element on which the body raises decides the outcome. *)
Lemma for_each_Raise (body : json → Result json) good good' bad rest e :
  Forall2 (λ x x', body x = Ok x') good good' →
  body bad = Raise e →
  for_each body (good ++ bad :: rest) = Raise e.
Proof.
  induction 1 as [|x x' l l' Hx _ IH]; simpl; intros Hbad.
  - by rewrite Hbad.
  - by rewrite Hx, IH.
Qed.

(** A non-empty sequence of strings stops the loop at once. *)
Lemma for_each_strings (ss : list string) :
  for_each filter_item (JStr <$> ss)
  = match ss with [] => Ok [] | _ => Raise AttributeError end.
Proof. by destruct ss. Qed.

Lemma chars_strings s : ∃ ss, Py.chars s = JStr <$> ss ∧ (ss = [] ↔ s = "").
Proof.
  induction s as [|c s (ss & Hss & _)].
  - by exists [].
  - exists (String c "" :: ss). simpl. rewrite Hss.
    split; [done|]. split; discriminate.
Qed.

(** When the pass succeeds, [data['items']] is a list whose records were
    all trimmed, or it is an empty dictionary or an empty string, over which
    the loop does not run. *)
Lemma filter_items_Ok items items' :
  filter_items items = Ok items' →
  (∃ l l', items = JArr l ∧ items' = JArr l' ∧ Forall2 trimmed l l')
  ∨ (items' = items ∧ (items = JObj ∅ ∨ items = JStr "")).
Proof.
  unfold filter_items. destruct items as [| | | |s|l|m]; try done; simpl.
  - destruct (chars_strings s) as (ss & -> & Hs).
    rewrite for_each_strings. destruct ss; [|done]. simpl.
    intros [= <-]. right. split; [done|]. right. f_equal. by apply Hs.
  - destruct (for_each filter_item l) as [l'|] eqn:Hl; [|done]. simpl.
    intros [= <-]. left. exists l, l'. split_and!; [done..|].
    apply for_each_Ok in Hl.
    eapply Forall2_impl; [exact Hl|]. apply filter_item_Ok.
  - rewrite for_each_strings.
    destruct ((map_to_list m).*1) as [|k ks] eqn:Hks; [|done]. simpl.
    intros [= <-]. right. split; [done|]. left. f_equal.
    apply fmap_nil_inv in Hks. by apply map_to_list_empty_iff.
Qed.

(** ** [_retrieve_data] *)

Lemma ceil_div_spec a b k : 0 < b → ceil_div a b = k ↔ b * (k - 1) < a ≤ b * k.
Proof.
  intros Hb. unfold ceil_div. split.
  - intros <-.
    pose proof (Z.mul_div_le (a + b - 1) b Hb).
    pose proof (Z.mul_succ_div_gt (a + b - 1) b Hb). lia.
  - intros H. symmetry. apply (Z.div_unique_pos _ _ _ (a + b - 1 - b * k)). lia. lia.
Qed.

Lemma limit_ind (P : Z → Prop) :
  (∀ limit, limit ≤ 100 → P limit) →
  (∀ limit, limit > 100 → P (limit - 100) → P limit) →
  ∀ limit, P limit.
Proof.
  intros Hbase Hstep limit.
  induction (Z.lt_wf 0 limit) as [limit _ IH] using Acc_ind.
  destruct (decide (limit > 100)); [|apply Hbase; lia].
  apply Hstep; [done|]. apply IH. lia.
Qed.

Lemma plan_base keyw limit page :
  limit ≤ 100 →
  plan keyw limit page
  = [mkRequest keyw (if decide (limit < 100) then limit else 100) page].
Proof.
  intros Hle. unfold plan.
  assert (Z.max 1 (ceil_div limit 100) = 1) as ->.
  { unfold ceil_div. assert ((limit + 100 - 1) / 100 < 2); [|lia].
    apply Z.div_lt_upper_bound; lia. }
  simpl. do 2 f_equal; [case_decide; lia | lia].
Qed.

Lemma plan_step keyw limit page :
  limit > 100 →
  plan keyw limit page
  = mkRequest keyw 100 page :: plan keyw (limit - 100) (page + 1).
Proof.
  intros Hgt. unfold plan.
  assert (ceil_div limit 100 = 1 + ceil_div (limit - 100) 100) as Hc.
  { unfold ceil_div.
    replace (limit + 100 - 1) with ((limit - 100 + 100 - 1) + 1 * 100) by lia.
    rewrite Z.div_add by lia. lia. }
  assert (1 ≤ ceil_div (limit - 100) 100).
  { unfold ceil_div. apply Z.div_le_lower_bound; lia. }
  rewrite Hc, !Z.max_r by lia.
  rewrite seqZ_cons by lia. rewrite fmap_cons.
  f_equal; [f_equal; lia|].
  replace (seqZ (Z.succ 0) (Z.pred (1 + ceil_div (limit - 100) 100)))
    with (Z.add 1 <$> seqZ 0 (ceil_div (limit - 100) 100))
    by (rewrite fmap_add_seqZ; f_equal; lia).
  rewrite <- list_fmap_compose.
  apply list_fmap_ext. intros _ i _. simpl. f_equal; lia.
Qed.

Lemma length_plan keyw limit page :
  Z.of_nat (length (plan keyw limit page)) = Z.max 1 (ceil_div limit 100).
Proof. unfold plan. rewrite length_fmap, length_seqZ. lia. Qed.

(** The defining equation of [_retrieve_data]. *)
Lemma retrieve_data_unfold up keyw limit page :
  _retrieve_data up keyw limit page
  = (let per_page := if decide (limit < 100) then limit else 100 in
     let* req := requests_get up (mkRequest keyw per_page page) in
     let* r_json := lift (req_json req) in
     match decide (limit > 100) with
     | left _ =>
         let* items := lift (Py.getitem r_json "items") in
         let* old := lift (Py.extend_of items) in
         let* next := _retrieve_data up keyw (limit - 100) (page + 1) in
         let* more := lift (Py.get next "items" (JArr [])) in
         let* new := lift (Py.iter more) in
         ret (Py.store r_json "items" (JArr (old ++ new)))
     | right _ => ret r_json
     end).
Proof.
  unfold _retrieve_data at 1. rewrite FixWf_unfold; [reflexivity|].
  intros x rec rec' Hrec. unfold _retrieve_data_functional.
  destruct (decide (pr1 (pr2 x) > 100)); [|reflexivity].
  by rewrite Hrec.
Qed.

(** One call of [_retrieve_data] on a world, when no further page is
    wanted ... *)
Lemma retrieve_base up keyw limit page w :
  limit ≤ 100 →
  let rq := mkRequest keyw (if decide (limit < 100) then limit else 100) page in
  _retrieve_data up keyw limit page w
  = (match up (requests w) rq with
     | Json body => Ok body
     | NotJson => Raise ValueError
     | Unreachable => Raise ConnectionError
     end, logged w rq).
Proof.
  intros Hle rq. rewrite retrieve_data_unfold.
  unfold bind, requests_get, lift, ret, logged. simpl. fold rq.
  destruct (up (requests w) rq); simpl; try done.
  destruct (decide (limit > 100)); [lia|done].
Qed.

(** ... and when one is. *)
Lemma retrieve_step up keyw limit page w :
  limit > 100 →
  let rq := mkRequest keyw 100 page in
  _retrieve_data up keyw limit page w
  = match up (requests w) rq with
    | Json body =>
        match rbind (Py.getitem body "items") Py.extend_of with
        | Ok old =>
            match _retrieve_data up keyw (limit - 100) (page + 1) (logged w rq) with
            | (Ok next, w') =>
                (rbind (rbind (Py.get next "items" (JArr [])) Py.iter)
                       (λ new, Ok (Py.store body "items" (JArr (old ++ new)))),
                 w')
            | (Raise e, w') => (Raise e, w')
            end
        | Raise e => (Raise e, logged w rq)
        end
    | NotJson => (Raise ValueError, logged w rq)
    | Unreachable => (Raise ConnectionError, logged w rq)
    end.
Proof.
  intros Hgt rq. rewrite retrieve_data_unfold.
  unfold bind, requests_get, lift, ret, logged. simpl.
  rewrite decide_False by lia. fold rq.
  destruct (up (requests w) rq) as [| |body]; simpl; try done.
  destruct (decide (limit > 100)); [|lia].
  destruct (Py.getitem body "items") as [items|]; simpl; [|done].
  destruct (Py.extend_of items) as [old|]; simpl; [|done].
  destruct (_retrieve_data up keyw (limit - 100) (page + 1) _) as [[next|] w'];
    [|done].
  destruct (Py.get next "items" (JArr [])) as [more|]; simpl; [|done].
  by destruct (Py.iter more).
Qed.

Lemma issued_first {A} rq rqs w (r : Result A) :
  (is_Ok r → rqs = []) → issued_within (rq :: rqs) w (logged w rq) r.
Proof.
  intros Hr. split; [done|]. exists 1%nat. simpl.
  split_and!; [lia|lia|done|]. intros Hok. by rewrite (Hr Hok).
Qed.

Lemma issued_more {A B} rq rqs w w' (r1 : Result A) (r : Result B) :
  issued_within rqs (logged w rq) w' r1 →
  (is_Ok r → is_Ok r1) →
  issued_within (rq :: rqs) w w' r.
Proof.
  intros (Hout & n & Hn & Hreq & Hall) Hr. split; [done|]. exists (S n). simpl.
  split_and!; [lia|lia| |].
  - rewrite Hreq. simpl. by rewrite <- app_assoc.
  - intros Hok. f_equal. auto.
Qed.

(** What a call does to the world, whatever the upstream answers. *)
Lemma retrieve_trace up keyw limit :
  ∀ page w r w',
    _retrieve_data up keyw limit page w = (r, w') →
    issued_within (plan keyw limit page) w w' r.
Proof.
  induction limit as [limit Hle|limit Hgt IH] using limit_ind; intros page w r w'.
  - rewrite retrieve_base, plan_base by done. intros [= <- <-].
    by apply issued_first.
  - rewrite retrieve_step, plan_step by done.
    set (rq := mkRequest keyw 100 page).
    destruct (up (requests w) rq) as [| |body];
      [intros [= <- <-]; by apply issued_first..|].
    destruct (rbind (Py.getitem body "items") Py.extend_of) as [old|];
      [|intros [= <- <-]; by apply issued_first].
    destruct (_retrieve_data up keyw (limit - 100) (page + 1) (logged w rq))
      as [[next|e] w1] eqn:Hrec;
      apply IH in Hrec; intros [= <- <-];
      by apply (issued_more _ _ _ _ _ _ Hrec).
Qed.

Lemma retrieve_stdout up keyw limit page w r w' :
  _retrieve_data up keyw limit page w = (r, w') → stdout w' = stdout w.
Proof. intros H. by apply retrieve_trace in H as [? _]. Qed.

Lemma retrieve_requests_Ok up keyw limit page w data w' :
  _retrieve_data up keyw limit page w = (Ok data, w') →
  requests w' = requests w ++ plan keyw limit page.
Proof.
  intros H. apply retrieve_trace in H as (_ & n & _ & -> & Hn).
  rewrite Hn by done. by rewrite firstn_all.
Qed.

(** When every planned request is answered with a page, the call returns the
    first page with the items of all pages, in the order of the pages. *)
Lemma retrieve_pages up keyw limit :
  ∀ page w ps,
    Forall2 is_page (replies up (requests w) (plan keyw limit page)) ps →
    ∃ m l rest,
      ps = (m, l) :: rest ∧
      _retrieve_data up keyw limit page w
      = (Ok (JObj (<["items" := JArr (concat ps.*2)]> m)),
         mkWorld (requests w ++ plan keyw limit page) (stdout w)).
Proof.
  induction limit as [limit Hle|limit Hgt IH] using limit_ind; intros page w ps.
  - rewrite retrieve_base, plan_base by done. simpl.
    intros Hps. apply Forall2_cons_inv_l in Hps as ([m l] & ps' & [Hr Hm] & Hnil & ->).
    apply Forall2_nil_inv_l in Hnil as ->. simpl in *.
    exists m, l, []. split; [done|]. rewrite Hr, app_nil_r.
    by rewrite insert_id.
  - rewrite retrieve_step, plan_step by done. simpl.
    set (rq := mkRequest keyw 100 page).
    intros Hps. apply Forall2_cons_inv_l in Hps as ([m l] & ps' & [Hr Hm] & Hps' & ->).
    simpl in *. rewrite Hr. simpl. rewrite Hm. simpl.
    destruct (IH (page + 1) (logged w rq) ps' Hps') as (m' & l' & rest & -> & ->).
    simpl. rewrite lookup_insert_eq. simpl.
    exists m, l, ((m', l') :: rest). split; [done|].
    by rewrite <- app_assoc.
Qed.

(** Two canned pages, for a limit that wants two: the items of the second
    follow the items of the first (100 and 50 of them make 150). *)
Lemma retrieve_two_canned_pages keyw limit (m1 m2 : gmap string json) l1 l2 :
  100 < limit ≤ 200 →
  m1 !! "items" = Some (JArr l1) →
  m2 !! "items" = Some (JArr l2) →
  _retrieve_data (scripted [JObj m1; JObj m2]) keyw limit 1 w0
  = (Ok (JObj (<["items" := JArr (l1 ++ l2)]> m1)),
     mkWorld [mkRequest keyw 100 1; first_request keyw (limit - 100) 2] []).
Proof.
  intros Hlimit Hm1 Hm2.
  destruct (retrieve_pages (scripted [JObj m1; JObj m2]) keyw limit 1 w0
              [(m1, l1); (m2, l2)]) as (m & l & rest & [= <- <- <-] & ->).
  - rewrite plan_step, plan_base by lia. simpl.
    repeat constructor; done.
  - rewrite plan_step, plan_base by lia. simpl.
    by rewrite app_nil_r.
Qed.

(** ** [main] *)

Lemma main_out_of_range up keyword limit w :
  limit < 1 ∨ limit > 1000 →
  main up keyword limit w
  = (Raise (SystemExit 1), mkWorld (requests w) (stdout w ++ [limit_error limit])).
Proof. intros H. unfold main, bind. by rewrite decide_True. Qed.

Lemma main_in_range up keyword limit w :
  1 ≤ limit ≤ 1000 →
  main up keyword limit w
  = match _retrieve_data up keyword limit 1 w with
    | (Ok data, w1) =>
        match build_report keyword limit data with
        | Ok doc => (Ok tt, mkWorld (requests w1) (stdout w1 ++ [JsonDumps doc 4]))
        | Raise e => (Raise e, w1)
        end
    | (Raise e, w1) => (Raise e, w1)
    end.
Proof.
  intros H. unfold main, bind, build_report, lift, ret, print.
  rewrite decide_False by lia.
  destruct (_retrieve_data up keyword limit 1 w) as [[data|e] w1]; [|done].
  destruct (Py.getitem data "items") as [items|]; simpl; [|done].
  destruct (filter_items items) as [items'|]; simpl; [|done].
  destruct (Py.getitem (Py.store data "items" items') "total_count"); simpl; [|done].
  by destruct (Py.getitem (Py.store data "items" items') "items").
Qed.

Lemma build_report_Ok keyword limit data doc :
  build_report keyword limit data = Ok doc →
  ∃ (m : gmap string json) items repo_list total_count,
    data = JObj m ∧
    m !! "items" = Some items ∧
    filter_items items = Ok repo_list ∧
    m !! "total_count" = Some total_count ∧
    doc = JObj (json_dict keyword limit total_count repo_list).
Proof.
  unfold build_report. destruct data as [| | | | | |m]; try done. simpl.
  destruct (m !! "items") as [items|] eqn:Hitems; [|done]. simpl.
  destruct (filter_items items) as [items'|] eqn:Hpass; [|done]. simpl.
  rewrite lookup_insert_ne by done. rewrite lookup_insert_eq.
  destruct (m !! "total_count") as [tc|] eqn:Htc; [|done]. simpl.
  intros [= <-]. by exists m, items, items', tc.
Qed.

Lemma plan_head keyw limit page :
  ∃ rest, plan keyw limit page = first_request keyw limit page :: rest.
Proof.
  unfold first_request. destruct (decide (limit > 100)).
  - rewrite plan_step, decide_False by lia. eauto.
  - rewrite plan_base by lia. eauto.
Qed.

(** C2: a call for [limit] results in [[1,1000]] that returns has issued
    exactly [⌈limit/100⌉] requests: one up to 100, two up to 200. *)
Theorem retrieve_request_count up keyw limit page w data w' :
  1 ≤ limit ≤ 1000 →
  _retrieve_data up keyw limit page w = (Ok data, w') →
  ∃ issued : list Request,
    requests w' = requests w ++ issued ∧
    Z.of_nat (length issued) = ceil_div limit 100 ∧
    (limit ≤ 100 → length issued = 1%nat) ∧
    (100 < limit ≤ 200 → length issued = 2%nat).
Proof.
  intros Hlimit Hrun. exists (plan keyw limit page).
  split; [by eapply retrieve_requests_Ok|].
  pose proof (length_plan keyw limit page) as Hlen.
  assert (1 ≤ ceil_div limit 100).
  { unfold ceil_div. apply Z.div_le_lower_bound; lia. }
  split; [lia|]. split; intros Hcase.
  - assert (ceil_div limit 100 = 1) by (apply ceil_div_spec; lia). lia.
  - assert (ceil_div limit 100 = 2) by (apply ceil_div_spec; lia). lia.
Qed.

(** C5: above 100 a call asks for the next page with 100 less to fetch and
    appends what it gets to its own items; over pages that all carry an
    items list the result is the first page with the items of all pages in
    page order; and whatever the upstream answers, the call ends after at
    most [⌈limit/100⌉] requests. *)
Theorem retrieve_recursion up keyw limit page w :
  limit > 100 →
  (∀ body old,
     up (requests w) (mkRequest keyw 100 page) = Json body →
     rbind (Py.getitem body "items") Py.extend_of = Ok old →
     _retrieve_data up keyw limit page w
     = let (r, w') := _retrieve_data up keyw (limit - 100) (page + 1)
                                     (logged w (mkRequest keyw 100 page)) in
       (rbind r (λ next,
        rbind (rbind (Py.get next "items" (JArr [])) Py.iter) (λ new,
        Ok (Py.store body "items" (JArr (old ++ new))))), w')) ∧
  (∀ ps,
     Forall2 is_page (replies up (requests w) (plan keyw limit page)) ps →
     ∃ m l rest,
       ps = (m, l) :: rest ∧
       _retrieve_data up keyw limit page w
       = (Ok (JObj (<["items" := JArr (concat ps.*2)]> m)),
          mkWorld (requests w ++ plan keyw limit page) (stdout w))) ∧
  (∃ issued : list Request,
     requests (_retrieve_data up keyw limit page w).2 = requests w ++ issued ∧
     issued `prefix_of` plan keyw limit page ∧
     Z.of_nat (length issued) ≤ ceil_div limit 100).
Proof.
  intros Hgt. split_and!.
  - intros body old Hbody Hold. rewrite retrieve_step by done.
    rewrite Hbody, Hold.
    by destruct (_retrieve_data up keyw (limit - 100) (page + 1) _) as [[next|e] w'].
  - apply retrieve_pages.
  - destruct (_retrieve_data up keyw limit page w) as [r w'] eqn:Hrun.
    apply retrieve_trace in Hrun as (_ & n & Hn & Hreq & _).
    exists (take n (plan keyw limit page)). split; [done|].
    split; [apply prefix_take|].
    pose proof (length_plan keyw limit page) as Hlen.
    assert (1 ≤ ceil_div limit 100).
    { unfold ceil_div. apply Z.div_le_lower_bound; lia. }
    rewrite length_take. lia.
Qed.

(** C9: what a call returns is the reply to its first request, with only
    ['items'] grown: every other field, ['total_count'] among them, is the
    one of that reply. *)
Theorem retrieve_first_page_fields up keyw limit page w data w' :
  _retrieve_data up keyw limit page w = (Ok data, w') →
  ∃ body,
    up (requests w) (first_request keyw limit page) = Json body ∧
    (∀ k, k ≠ "items" → Py.getitem data k = Py.getitem body k) ∧
    Py.getitem data "total_count" = Py.getitem body "total_count" ∧
    (limit ≤ 100 → data = body) ∧
    (limit > 100 →
       ∃ (m : gmap string json) old new,
         body = JObj m ∧ m !! "items" = Some (JArr old) ∧
         data = JObj (<["items" := JArr (old ++ new)]> m)).
Proof.
  unfold first_request. destruct (decide (limit > 100)) as [Hgt|Hle].
  - rewrite retrieve_step, decide_False by lia.
    destruct (up (requests w) _) as [| |body]; [done..|].
    destruct body as [| | | | | |m]; try done. simpl.
    destruct (m !! "items") as [[| | | | |old|]|] eqn:Hitems; try done. simpl.
    destruct (_retrieve_data up keyw (limit - 100) (page + 1) _) as [[next|e] w1];
      [|done].
    destruct (rbind (Py.get next "items" (JArr [])) Py.iter) as [new|]; [|done].
    simpl. intros [= <- <-]. exists (JObj m).
    split_and!; [done| | |lia|].
    + intros k Hk. simpl. by rewrite lookup_insert_ne.
    + simpl. by rewrite lookup_insert_ne.
    + intros _. by exists m, old, new.
  - rewrite retrieve_base by lia.
    destruct (up (requests w) _) as [| |body]; [done..|].
    intros [= <- <-]. exists body. split_and!; [done..|lia].
Qed.

(** A successful run of [main] is a successful retrieval followed by a
    successful report. *)
Lemma main_success up keyword limit w w' :
  main up keyword limit w = (Ok tt, w') →
  1 ≤ limit ≤ 1000 ∧
  ∃ data w1 doc,
    _retrieve_data up keyword limit 1 w = (Ok data, w1) ∧
    build_report keyword limit data = Ok doc ∧
    w' = mkWorld (requests w1) (stdout w ++ [JsonDumps doc 4]).
Proof.
  destruct (decide (limit < 1 ∨ limit > 1000)) as [Hout|Hin].
  { by rewrite main_out_of_range. }
  rewrite main_in_range by lia. intros H. split; [lia|].
  destruct (_retrieve_data up keyword limit 1 w) as [[data|e] w1] eqn:Hrun; [|done].
  destruct (build_report keyword limit data) as [doc|] eqn:Hdoc; [|done].
  injection H as <-. exists data, w1, doc.
  by rewrite (retrieve_stdout _ _ _ _ _ _ _ Hrun).
Qed.

Lemma no_exit_Raise {A B} e : no_exit (@Raise A e) → no_exit (@Raise B e).
Proof. intros H status [= ->]. by apply (H status). Qed.

Lemma retrieve_no_exit up keyw limit :
  ∀ page w, no_exit (_retrieve_data up keyw limit page w).1.
Proof.
  induction limit as [limit Hle|limit Hgt IH] using limit_ind; intros page w status.
  - rewrite retrieve_base by done. simpl. by destruct (up _ _).
  - rewrite retrieve_step by done.
    destruct (up _ _) as [| |body]; [done..|].
    destruct body as [| | | | | |m]; try done. simpl.
    destruct (m !! "items") as [[| | | | |old|]|]; try done. simpl.
    specialize (IH (page + 1) (logged w (mkRequest keyw 100 page)) status).
    destruct (_retrieve_data up keyw (limit - 100) (page + 1) _) as [[next|e] w1];
      [|done].
    simpl. destruct next as [| | | | | |m']; try done. simpl.
    by destruct (default (JArr []) (m' !! "items")).
Qed.

Lemma filter_item_no_exit item : no_exit (filter_item item).
Proof.
  intros status. unfold filter_item.
  destruct item as [| | | | | |m]; try done.
  rewrite filter_dict_kept. simpl.
  destruct (kept DATA_KEYS m !! "owner") as [[| | | | | |o]|]; try done.
  simpl. by rewrite filter_dict_kept.
Qed.

Lemma for_each_no_exit l : no_exit (for_each filter_item l).
Proof.
  intros status. induction l as [|x l IH]; simpl; [done|].
  pose proof (filter_item_no_exit x status) as Hx.
  destruct (filter_item x); simpl; [|by intros [= ->]].
  by destruct (for_each filter_item l).
Qed.

Lemma build_report_no_exit keyword limit data :
  no_exit (build_report keyword limit data).
Proof.
  intros status. unfold build_report, filter_items.
  destruct data as [| | | | | |m]; try done. simpl.
  destruct (m !! "items") as [items|]; [|done]. simpl.
  destruct (Py.iter items) as [elems|] eqn:Hiter; simpl;
    [|by destruct items; simplify_eq/=].
  pose proof (for_each_no_exit elems status) as Hloop.
  destruct (for_each filter_item elems) as [elems'|]; simpl; [|by intros [= ->]].
  rewrite lookup_insert_ne by done. rewrite lookup_insert_eq.
  by destruct (m !! "total_count").
Qed.

(** C4: outside [[1,1000]] the run prints the error, issues no request and
    exits with status 1; inside, it goes on to the first request, prints no
    error and does not end in [sys.exit]. *)
Theorem limit_validation up keyword limit w :
  (limit < 1 ∨ limit > 1000 →
     main up keyword limit w
     = (Raise (SystemExit 1),
        mkWorld (requests w) (stdout w ++ [limit_error limit])) ∧
     exit_status (main up keyword limit w).1 = 1) ∧
  (1 ≤ limit ≤ 1000 →
     ∃ issued out,
       requests (main up keyword limit w).2
       = requests w ++ first_request keyword limit 1 :: issued ∧
       stdout (main up keyword limit w).2 = stdout w ++ out ∧
       (∀ s, Text s ∉ out) ∧
       no_exit (main up keyword limit w).1).
Proof.
  split.
  - intros Hout. by rewrite main_out_of_range.
  - intros Hin. rewrite main_in_range by done.
    pose proof (retrieve_no_exit up keyword limit 1 w) as Hne.
    destruct (_retrieve_data up keyword limit 1 w) as [r w1] eqn:Hrun.
    pose proof Hrun as (Hstdout & n & Hn & Hreq & _)%retrieve_trace.
    destruct (plan_head keyword limit 1) as [rest Hplan].
    rewrite Hplan in Hreq. destruct n as [|n]; [lia|]. simpl in Hreq.
    exists (take n rest).
    destruct r as [data|e]; simpl in *.
    + pose proof (build_report_no_exit keyword limit data) as Hne'.
      destruct (build_report keyword limit data) as [doc|e]; simpl.
      * exists [JsonDumps doc 4]. rewrite Hstdout.
        split_and!; [done..| |done]. intros s. set_solver.
      * exists []. rewrite app_nil_r.
        split_and!; [done..| |by eapply no_exit_Raise].
        intros s. set_solver.
    + exists []. rewrite app_nil_r.
      split_and!; [done..| |by eapply no_exit_Raise].
      intros s. set_solver.
Qed.

(** C7: a successful run prints one thing: the [indent=4] dump of a
    dictionary with exactly the four keys, bound to the keyword, the limit,
    the ['total_count'] of the retrieved data and its filtered ['items']. *)
Theorem main_prints_report up keyword limit w w' :
  main up keyword limit w = (Ok tt, w') →
  ∃ data w1 items total_count repo_list (doc : gmap string json),
    _retrieve_data up keyword limit 1 w = (Ok data, w1) ∧
    Py.getitem data "total_count" = Ok total_count ∧
    Py.getitem data "items" = Ok items ∧
    filter_items items = Ok repo_list ∧
    stdout w' = stdout w ++ [JsonDumps (JObj doc) 4] ∧
    dom doc = {[ "keyword"; "repository_limit"; "total_repositories"; "repo_list" ]} ∧
    doc !! "keyword" = Some (JStr keyword) ∧
    doc !! "repository_limit" = Some (JInt limit) ∧
    doc !! "total_repositories" = Some total_count ∧
    doc !! "repo_list" = Some repo_list.
Proof.
  intros (_ & data & w1 & doc & Hrun & Hdoc & ->)%main_success.
  apply build_report_Ok in Hdoc as (m & items & repo_list & tc & -> & Hi & Hp & Ht & ->).
  exists (JObj m), w1, items, tc, repo_list, (json_dict keyword limit tc repo_list).
  simpl. rewrite Hi, Ht. by split_and!.
Qed.

Lemma trimmed_keys item record :
  trimmed item record → allowed_keys_only item record.
Proof.
  intros (m & o & m' & o' & -> & Ho & Hm' & Ho' & ->).
  rewrite filter_dict_kept in Hm', Ho'. simplify_eq.
  exists m, o, (<["owner" := JObj (kept OWNER_KEYS o)]> (kept DATA_KEYS m)),
         (kept OWNER_KEYS o).
  assert ("owner" ∈ dom m) by (apply elem_of_dom; eauto).
  pose proof owner_in_DATA_KEYS.
  rewrite lookup_insert_eq, dom_insert_L, !dom_kept.
  split_and!; try done; set_solver.
Qed.

(** C3: in the report of a successful run, every record of [repo_list] has
    exactly the keys of the retrieved record that are in [DATA_KEYS], and its
    owner exactly those of the retrieved owner that are in [OWNER_KEYS]. *)
Theorem report_record_keys up keyword limit w w' :
  main up keyword limit w = (Ok tt, w') →
  ∃ data w1 items (doc : gmap string json) repo_list retrieved records,
    _retrieve_data up keyword limit 1 w = (Ok data, w1) ∧
    Py.getitem data "items" = Ok items ∧
    Py.iter items = Ok retrieved ∧
    stdout w' = stdout w ++ [JsonDumps (JObj doc) 4] ∧
    doc !! "repo_list" = Some repo_list ∧
    Py.iter repo_list = Ok records ∧
    Forall2 allowed_keys_only retrieved records.
Proof.
  intros (_ & data & w1 & doc & Hrun & Hdoc & ->)%main_success.
  apply build_report_Ok in Hdoc as (m & items & repo_list & tc & -> & Hi & Hp & Ht & ->).
  apply filter_items_Ok in Hp as [(l & l' & -> & -> & Hl)|[-> Hempty]].
  - exists (JObj m), w1, (JArr l), (json_dict keyword limit tc (JArr l')),
           (JArr l'), l, l'.
    simpl. rewrite Hi. split_and!; try done.
    eapply Forall2_impl; [exact Hl|]. apply trimmed_keys.
  - exists (JObj m), w1, items, (json_dict keyword limit tc items), items, [], [].
    simpl. rewrite Hi.
    destruct Hempty as [-> | ->]; simpl; rewrite ?map_to_list_empty;
      split_and!; try done; constructor.
Qed.

(** C6: [_filter_dict] leaves a dictionary without the keys outside
    [key_set] and with the entries under the keys inside it as they were;
    the pass over a list that succeeds has applied it to each record with
    [DATA_KEYS] and to the owner of each with [OWNER_KEYS]. *)
Theorem filter_dict_frame (src_dict : gmap string json) (key_set : gset string) :
  (∃ d' : gmap string json,
     _filter_dict (JObj src_dict) key_set = Ok (JObj d') ∧
     (∀ k, k ∉ key_set → d' !! k = None) ∧
     (∀ k, k ∈ key_set → d' !! k = src_dict !! k)) ∧
  (∀ l items',
     filter_items (JArr l) = Ok items' →
     ∃ l', items' = JArr l' ∧ Forall2 trimmed l l').
Proof.
  split.
  - exists (kept key_set src_dict). split; [apply filter_dict_kept|].
    split; intros k Hk; rewrite lookup_kept.
    + by rewrite decide_False.
    + by rewrite decide_True.
  - intros l items' [(l0 & l' & [= <-] & -> & Hl)|[-> [?|?]]]%filter_items_Ok;
      [eauto|done..].
Qed.

(** Only the reply to the last request may be anything that [get] and the
    iteration accept: what it yields is appended after the items of the
    pages before it. *)
Lemma retrieve_lenient_last up keyw limit :
  ∀ page w init last_rq ps last new,
    limit > 100 →
    plan keyw limit page = init ++ [last_rq] →
    Forall2 is_page (replies up (requests w) init) ps →
    up (requests w ++ init) last_rq = Json last →
    rbind (Py.get last "items" (JArr [])) Py.iter = Ok new →
    ∃ m l rest,
      ps = (m, l) :: rest ∧
      _retrieve_data up keyw limit page w
      = (Ok (JObj (<["items" := JArr (concat ps.*2 ++ new)]> m)),
         mkWorld (requests w ++ plan keyw limit page) (stdout w)).
Proof.
  induction limit as [limit Hle|limit Hgt IH] using limit_ind;
    intros page w init last_rq ps last new Hlimit; [lia|].
  rewrite retrieve_step, plan_step by done.
  set (rq := mkRequest keyw 100 page).
  destruct (plan_head keyw (limit - 100) (page + 1)) as [tl Htl].
  destruct init as [|rq0 init]; simpl.
  { rewrite Htl. intros [= _ ?]. }
  intros [= <- Hplan] Hps Hlast Hnew.
  apply Forall2_cons_inv_l in Hps as ([m l] & ps' & [Hr Hm] & Hps' & ->).
  simpl in *. rewrite Hr. simpl. rewrite Hm. simpl.
  exists m, l, ps'. split; [done|].
  destruct (decide (limit - 100 > 100)) as [Hmore|Hdone].
  - destruct (IH (page + 1) (logged w rq) init last_rq ps' last new)
      as (m' & l' & rest & -> & ->); try done.
    { simpl. by rewrite <- app_assoc. }
    simpl. rewrite lookup_insert_eq. simpl.
    by rewrite <- !app_assoc.
  - rewrite plan_base in Hplan by lia.
    destruct init as [|? [|? ?]]; simplify_eq/=.
    apply Forall2_nil_inv_l in Hps' as ->.
    rewrite retrieve_base by lia. simpl.
    rewrite plan_base by lia. simpl. rewrite Hlast. simpl. rewrite Hnew.
    unfold logged. simpl. by rewrite app_nil_r, <- app_assoc.
Qed.

(** A reply without ['items'] to a request that is not the last one ends
    the call with [KeyError]. *)
Lemma retrieve_missing_items up keyw limit :
  ∀ page w before rq after ps (m : gmap string json),
    plan keyw limit page = before ++ rq :: after →
    after ≠ [] →
    Forall2 is_page (replies up (requests w) before) ps →
    up (requests w ++ before) rq = Json (JObj m) →
    m !! "items" = None →
    (_retrieve_data up keyw limit page w).1 = Raise (KeyError "items").
Proof.
  induction limit as [limit Hle|limit Hgt IH] using limit_ind;
    intros page w before rq after ps m.
  - rewrite plan_base by done.
    destruct before as [|? [|? ?]]; intros; simplify_eq/=.
  - rewrite retrieve_step, plan_step by done.
    destruct before as [|rq0 before]; simpl.
    + intros [= <- _] _ _. rewrite app_nil_r. intros -> Hm. simpl.
      by rewrite Hm.
    + intros [= <- Hplan] Hafter Hps Hrq Hm.
      apply Forall2_cons_inv_l in Hps as ([m0 l0] & ps' & [Hr Hm0] & Hps' & ->).
      simpl in *. rewrite Hr. simpl. rewrite Hm0. simpl.
      specialize (IH (page + 1) (logged w (mkRequest keyw 100 page))
                     before rq after ps' m Hplan Hafter Hps').
      simpl in IH. rewrite <- app_assoc in IH. specialize (IH Hrq Hm).
      destruct (_retrieve_data up keyw (limit - 100) (page + 1) _)
        as [[next|e] w1]; by simplify_eq/=.
Qed.

Lemma main_retrieve_raises up keyword limit w e :
  1 ≤ limit ≤ 1000 →
  (_retrieve_data up keyword limit 1 w).1 = Raise e →
  (main up keyword limit w).1 = Raise e.
Proof.
  intros Hlimit. rewrite main_in_range by done.
  destruct (_retrieve_data up keyword limit 1 w) as [[data|e'] w1]; simpl; [done|].
  by intros [= ->].
Qed.

Lemma main_page1_missing_items up keyword limit w (m : gmap string json) :
  1 ≤ limit ≤ 1000 →
  up (requests w) (first_request keyword limit 1) = Json (JObj m) →
  m !! "items" = None →
  (main up keyword limit w).1 = Raise (KeyError "items").
Proof.
  intros Hlimit. unfold first_request. intros Hreply Hm.
  destruct (decide (limit > 100)) as [Hgt|Hle].
  - apply main_retrieve_raises; [done|].
    rewrite retrieve_step by done. rewrite decide_False in Hreply by lia.
    rewrite Hreply. simpl. by rewrite Hm.
  - rewrite main_in_range, retrieve_base by lia. rewrite Hreply.
    unfold build_report. simpl. by rewrite Hm.
Qed.

Lemma filter_item_orphan (m : gmap string json) :
  m !! "owner" = None → filter_item (JObj m) = Raise (KeyError "owner").
Proof.
  intros Hm. unfold filter_item. rewrite filter_dict_kept. simpl.
  rewrite lookup_kept, decide_True by apply owner_in_DATA_KEYS.
  by rewrite Hm.
Qed.

Lemma Forall_is_Ok (body : json → Result json) l :
  Forall (λ x, is_Ok (body x)) l →
  ∃ l', Forall2 (λ x x', body x = Ok x') l l'.
Proof.
  induction 1 as [|x l Hx _ [l' IH]]; [by exists []|].
  destruct (body x) as [x'|] eqn:Hbody; [|done].
  exists (x' :: l'). by constructor.
Qed.

Lemma main_missing_owner up keyword limit w data w1 good bad rest :
  1 ≤ limit ≤ 1000 →
  _retrieve_data up keyword limit 1 w = (Ok data, w1) →
  Py.getitem data "items" = Ok (JArr (good ++ JObj bad :: rest)) →
  Forall (λ x, is_Ok (filter_item x)) good →
  bad !! "owner" = None →
  (main up keyword limit w).1 = Raise (KeyError "owner").
Proof.
  intros Hlimit Hrun Hitems [good' Hgood]%Forall_is_Ok Hbad.
  rewrite main_in_range, Hrun by done.
  unfold build_report, filter_items. rewrite Hitems. simpl.
  by rewrite (for_each_Raise _ _ _ _ _ _ Hgood (filter_item_orphan _ Hbad)).
Qed.

(** C10, as the code has it: above 100, a reply without ['items'] is taken
    for an empty page only when it answers the last request; to any request
    before the last one, and to the only request of a run of at most 100, it
    ends the run with [KeyError], and so does a record without ['owner']. *)
Theorem missing_items_asymmetry up keyword limit w :
  1 ≤ limit ≤ 1000 →
  (∀ init last_rq ps (last : gmap string json),
     limit > 100 →
     plan keyword limit 1 = init ++ [last_rq] →
     Forall2 is_page (replies up (requests w) init) ps →
     up (requests w ++ init) last_rq = Json (JObj last) →
     last !! "items" = None →
     ∃ m l rest,
       ps = (m, l) :: rest ∧
       _retrieve_data up keyword limit 1 w
       = (Ok (JObj (<["items" := JArr (concat ps.*2)]> m)),
          mkWorld (requests w ++ plan keyword limit 1) (stdout w))) ∧
  (∀ before rq after ps (m : gmap string json),
     plan keyword limit 1 = before ++ rq :: after →
     after ≠ [] →
     Forall2 is_page (replies up (requests w) before) ps →
     up (requests w ++ before) rq = Json (JObj m) →
     m !! "items" = None →
     (main up keyword limit w).1 = Raise (KeyError "items")) ∧
  (∀ m : gmap string json,
     up (requests w) (first_request keyword limit 1) = Json (JObj m) →
     m !! "items" = None →
     (main up keyword limit w).1 = Raise (KeyError "items")) ∧
  (∀ data w1 good (bad : gmap string json) rest,
     _retrieve_data up keyword limit 1 w = (Ok data, w1) →
     Py.getitem data "items" = Ok (JArr (good ++ JObj bad :: rest)) →
     Forall (λ x, is_Ok (filter_item x)) good →
     bad !! "owner" = None →
     (main up keyword limit w).1 = Raise (KeyError "owner")).
Proof.
  intros Hlimit. split_and!.
  - intros init last_rq ps last Hgt Hplan Hps Hlast Hnone.
    destruct (retrieve_lenient_last up keyword limit 1 w init last_rq ps
                (JObj last) [] Hgt Hplan Hps Hlast) as (m & l & rest & -> & ->).
    { simpl. by rewrite Hnone. }
    exists m, l, rest. by rewrite app_nil_r.
  - intros before rq after ps m Hplan Hafter Hps Hrq Hm.
    apply main_retrieve_raises; [done|].
    by eapply retrieve_missing_items.
  - intros m. by apply main_page1_missing_items.
  - intros data w1 good bad rest. by apply main_missing_owner.
Qed.

(** A run from end to end: one canned page of one record, with a count of
    42, and a limit of 1. *)
Lemma report_of_one_record :
  main (scripted [JObj (canned_page 42 [repo 1])]) "raft" 1 w0
  = (Ok tt,
     mkWorld [mkRequest "raft" 1 1]
             [JsonDumps (JObj (json_dict "raft" 1 (JInt 42) (JArr [repo_trimmed 1]))) 4]).
Proof. vm_compute. reflexivity. Qed.

(** ** The last page against an API that honours [per_page] and [page] *)

Lemma build_report_list keyword limit (m : gmap string json) l l' total_count :
  m !! "items" = Some (JArr l) →
  m !! "total_count" = Some total_count →
  for_each filter_item l = Ok l' →
  build_report keyword limit (JObj m)
  = Ok (JObj (json_dict keyword limit total_count (JArr l'))).
Proof.
  intros Hitems Htotal Hloop. unfold build_report, filter_items. simpl.
  rewrite Hitems. simpl. rewrite Hloop. simpl.
  rewrite lookup_insert_ne by done. rewrite lookup_insert_eq, Htotal. done.
Qed.

Lemma printed_repo_list_snoc rqs out keyword limit total_count l :
  printed_repo_list
    (mkWorld rqs (out ++ [JsonDumps (JObj (json_dict keyword limit total_count (JArr l))) 4]))
  = l.
Proof.
  unfold printed_repo_list, printed_report. simpl. by rewrite last_snoc.
Qed.

(** Up to 100 the report holds the first [limit] records, or all of them
    when there are fewer. *)
Lemma single_page_report_length repos keyword limit w :
  1 ≤ limit ≤ 100 →
  Forall (λ x, is_Ok (filter_item x)) repos →
  (main (serve repos) keyword limit w).1 = Ok tt ∧
  Z.of_nat (length (printed_repo_list (main (serve repos) keyword limit w).2))
  = Z.min limit (Z.of_nat (length repos)).
Proof.
  intros Hlimit Hrepos.
  rewrite main_in_range, retrieve_base by lia. unfold serve.
  set (rq := mkRequest keyword _ 1).
  assert (page_items repos rq = take (Z.to_nat limit) repos) as Hitems.
  { unfold page_items, rq. simpl. case_decide; [done|].
    by replace limit with 100 by lia. }
  destruct (Forall_is_Ok filter_item (take (Z.to_nat limit) repos))
    as [l' Hl']; [by apply Forall_take|].
  pose proof (Forall2_length _ _ _ Hl') as Hlen.
  rewrite length_take in Hlen.
  rewrite (build_report_list keyword limit (page_body repos rq)
             (take (Z.to_nat limit) repos) l' (JInt (Z.of_nat (length repos)))).
  - simpl. split; [done|]. rewrite printed_repo_list_snoc. lia.
  - unfold page_body. rewrite Hitems. by simplify_map_eq.
  - unfold page_body. by simplify_map_eq.
  - by apply for_each_Forall2.
Qed.

Lemma lookup_page_body_items repos rq :
  page_body repos rq !! "items" = Some (JArr (page_items repos rq)).
Proof. unfold page_body. by simplify_map_eq. Qed.

(** Between 100 and 200 the second request asks for page 2 in pages of
    [limit - 100]: its records start after the first [limit - 100] of the
    result, not after the first 100. *)
Lemma second_page_overlap repos keyw limit :
  100 < limit ≤ 200 →
  let r := Z.to_nat (limit - 100) in
  (_retrieve_data (serve repos) keyw limit 1 w0).1
  = Ok (JObj (<["items" := JArr (take 100 repos ++ take r (drop r repos))]>
               (page_body repos (mkRequest keyw 100 1)))).
Proof.
  intros Hlimit r.
  set (rq1 := mkRequest keyw 100 1).
  set (rq2 := first_request keyw (limit - 100) 2).
  destruct (retrieve_pages (serve repos) keyw limit 1 w0
              [(page_body repos rq1, page_items repos rq1);
               (page_body repos rq2, page_items repos rq2)])
    as (m & l & rest & [= <- <- <-] & ->).
  - rewrite plan_step, plan_base by lia. simpl.
    repeat constructor; simpl; apply lookup_page_body_items.
  - simpl. do 4 f_equal. rewrite app_nil_r. f_equal.
    unfold page_items, rq2, first_request. simpl.
    replace (Z.to_nat (if decide (limit - 100 < 100) then limit - 100 else 100))
      with r by (case_decide; lia).
    by rewrite Nat.add_0_r.
Qed.

(** The second request of a run for 150 records. *)
Lemma second_request_url :
  url (mkRequest "kv-store" 50 2)
  = "https://api.github.com/search/repositories?q=kv-store&sort=forks&order=desc&per_page=50&page=2".
Proof. reflexivity. Qed.

(** C1, at the input where the code departs from it: the API holds 60
    records and 150 are asked for.  The second request asks for page 2 in
    pages of 50, that is for records 51 to 100, and records 51 to 60 were on
    page 1 already: the report lists 70 records, the last 10 of them a
    second time, where [min(limit, total_count)] is 60. *)
Theorem overlapping_last_page :
  let run := main (serve (repos 60)) "kv-store" 150 w0 in
  run.1 = Ok tt ∧
  requests run.2 = [mkRequest "kv-store" 100 1; mkRequest "kv-store" 50 2] ∧
  printed_report run.2 ≫= (.!! "total_repositories") = Some (JInt 60) ∧
  length (printed_repo_list run.2) = 70%nat ∧
  Z.of_nat (length (printed_repo_list run.2)) ≠ Z.min 150 60 ∧
  drop 60 (printed_repo_list run.2) = take 10 (drop 50 (printed_repo_list run.2)).
Proof.
  intros run. split_and!; [vm_compute; reflexivity..| |vm_compute; reflexivity].
  vm_compute. discriminate.
Qed.

(** * The theorems at work *)

Lemma retrieve_request_count_witness :
  let run := _retrieve_data (serve (repos 3)) "kv-store" 150 1 w0 in
  run = (Ok (returned run.1), run.2) ∧
  ∃ issued : list Request,
    requests run.2 = requests w0 ++ issued ∧
    Z.of_nat (length issued) = ceil_div 150 100 ∧
    (150 ≤ 100 → length issued = 1%nat) ∧
    (100 < 150 ≤ 200 → length issued = 2%nat).
Proof.
  intros run.
  assert (run = (Ok (returned run.1), run.2)) as Hrun by (vm_compute; reflexivity).
  split; [exact Hrun|].
  exact (retrieve_request_count (serve (repos 3)) "kv-store" 150 1 w0
           (returned run.1) run.2 ltac:(lia) Hrun).
Defined.

Lemma retrieve_recursion_witness :
  let up := scripted (JObj <$> two_pages.*1) in
  let rq1 := mkRequest "kv-store" 100 1 in
  let rq2 := mkRequest "kv-store" 50 2 in
  _retrieve_data up "kv-store" 150 1 w0
  = (let (r, w') := _retrieve_data up "kv-store" (150 - 100) (1 + 1) (logged w0 rq1) in
     (rbind r (λ next,
      rbind (rbind (Py.get next "items" (JArr [])) Py.iter) (λ new,
      Ok (Py.store (JObj (canned_page 3 (repos_from 1 2))) "items"
                   (JArr (repos_from 1 2 ++ new))))), w')) ∧
  (∃ m l rest,
     two_pages = (m, l) :: rest ∧
     _retrieve_data up "kv-store" 150 1 w0
     = (Ok (JObj (<["items" := JArr (concat two_pages.*2)]> m)),
        mkWorld (requests w0 ++ plan "kv-store" 150 1) (stdout w0))) ∧
  ∃ issued : list Request,
    requests (_retrieve_data up "kv-store" 150 1 w0).2 = requests w0 ++ issued ∧
    issued `prefix_of` plan "kv-store" 150 1 ∧
    Z.of_nat (length issued) ≤ ceil_div 150 100.
Proof.
  intros up rq1 rq2.
  destruct (retrieve_recursion up "kv-store" 150 1 w0 ltac:(lia))
    as (Hstep & Hpages & Hbound).
  split; [|split].
  - apply (Hstep (JObj (canned_page 3 (repos_from 1 2))) (repos_from 1 2));
      vm_compute; reflexivity.
  - apply Hpages.
    replace (plan "kv-store" 150 1) with [rq1; rq2] by (vm_compute; reflexivity).
    unfold two_pages. cbn [replies].
    repeat (apply Forall2_cons_2; [split; vm_compute; reflexivity|]).
    apply Forall2_nil_2.
  - exact Hbound.
Defined.

Lemma retrieve_first_page_fields_witness :
  let up := scripted (JObj <$> two_pages.*1) in
  let run := _retrieve_data up "kv-store" 150 1 w0 in
  run = (Ok (returned run.1), run.2) ∧
  ∃ body,
    up (requests w0) (first_request "kv-store" 150 1) = Json body ∧
    Py.getitem (returned run.1) "total_count" = Py.getitem body "total_count".
Proof.
  intros up run.
  assert (run = (Ok (returned run.1), run.2)) as Hrun by (vm_compute; reflexivity).
  split; [exact Hrun|].
  destruct (retrieve_first_page_fields up "kv-store" 150 1 w0
              (returned run.1) run.2 Hrun) as (body & Hbody & _ & Htotal & _).
  exists body. split; [exact Hbody|exact Htotal].
Defined.

Lemma limit_validation_witness :
  let up := scripted [JObj (canned_page 42 [repo 1])] in
  (main up "raft" 0 w0
   = (Raise (SystemExit 1), mkWorld (requests w0) (stdout w0 ++ [limit_error 0])) ∧
   exit_status (main up "raft" 0 w0).1 = 1) ∧
  (main up "raft" 1001 w0
   = (Raise (SystemExit 1), mkWorld (requests w0) (stdout w0 ++ [limit_error 1001])) ∧
   exit_status (main up "raft" 1001 w0).1 = 1) ∧
  no_exit (main up "raft" 1 w0).1.
Proof.
  intros up.
  split; [exact (proj1 (limit_validation up "raft" 0 w0) ltac:(lia))|].
  split; [exact (proj1 (limit_validation up "raft" 1001 w0) ltac:(lia))|].
  destruct (proj2 (limit_validation up "raft" 1 w0) ltac:(lia))
    as (issued & out & _ & _ & _ & Hin).
  exact Hin.
Defined.

Lemma main_prints_report_witness :
  let run := main (scripted [JObj (canned_page 42 [repo 1])]) "raft" 1 w0 in
  run = (Ok tt, run.2) ∧
  ∃ (doc : gmap string json) total_count repo_list,
    stdout run.2 = stdout w0 ++ [JsonDumps (JObj doc) 4] ∧
    doc !! "keyword" = Some (JStr "raft") ∧
    doc !! "repository_limit" = Some (JInt 1) ∧
    doc !! "total_repositories" = Some total_count ∧
    doc !! "repo_list" = Some repo_list.
Proof.
  intros run.
  assert (run = (Ok tt, run.2)) as Hrun by (vm_compute; reflexivity).
  split; [exact Hrun|].
  destruct (main_prints_report _ "raft" 1 w0 run.2 Hrun)
    as (data & w1 & items & total_count & repo_list & doc
        & _ & _ & _ & _ & Hout & _ & Hk & Hl & Ht & Hr).
  exists doc, total_count, repo_list.
  split; [exact Hout|]. split; [exact Hk|]. split; [exact Hl|].
  split; [exact Ht|exact Hr].
Defined.

Lemma report_record_keys_witness :
  let run := main (scripted [JObj (canned_page 42 [repo 1])]) "raft" 1 w0 in
  run = (Ok tt, run.2) ∧
  ∃ (doc : gmap string json) repo_list retrieved records,
    stdout run.2 = stdout w0 ++ [JsonDumps (JObj doc) 4] ∧
    doc !! "repo_list" = Some repo_list ∧
    Py.iter repo_list = Ok records ∧
    Forall2 allowed_keys_only retrieved records.
Proof.
  intros run.
  assert (run = (Ok tt, run.2)) as Hrun by (vm_compute; reflexivity).
  split; [exact Hrun|].
  destruct (report_record_keys _ "raft" 1 w0 run.2 Hrun)
    as (data & w1 & items & doc & repo_list & retrieved & records
        & _ & _ & _ & Hout & Hdoc & Hrecords & Hkeys).
  exists doc, repo_list, retrieved, records.
  split; [exact Hout|]. split; [exact Hdoc|]. split; [exact Hrecords|exact Hkeys].
Defined.

Lemma filter_dict_frame_witness :
  ∃ d' : gmap string json,
    _filter_dict (JObj (repo_fields 1)) DATA_KEYS = Ok (JObj d') ∧
    d' !! "score" = None ∧
    d' !! "id" = repo_fields 1 !! "id" ∧
    ∃ l', returned (filter_items (JArr [repo 1; repo 2])) = JArr l' ∧
          Forall2 trimmed [repo 1; repo 2] l'.
Proof.
  destruct (filter_dict_frame (repo_fields 1) DATA_KEYS)
    as [(d' & Hd' & Hout & Hin) Hpass].
  exists d'. split; [exact Hd'|].
  split; [apply Hout; vm_compute; discriminate|].
  split; [apply Hin; vm_compute; reflexivity|].
  apply (Hpass [repo 1; repo 2] (returned (filter_items (JArr [repo 1; repo 2])))).
  vm_compute. reflexivity.
Defined.

Lemma missing_items_asymmetry_witness :
  (let ps := [(page_body (repos 3) (mkRequest "kv" 100 1), repos 3)] in
   ∃ m l rest,
     ps = (m, l) :: rest ∧
     _retrieve_data (serve_until 1 (repos 3)) "kv" 150 1 w0
     = (Ok (JObj (<["items" := JArr (concat ps.*2)]> m)),
        mkWorld (requests w0 ++ plan "kv" 150 1) (stdout w0))) ∧
  (main (serve_until 1 (repos 3)) "kv" 250 w0).1 = Raise (KeyError "items") ∧
  (main (serve_until 0 (repos 3)) "kv" 5 w0).1 = Raise (KeyError "items") ∧
  (main (serve [repo 1; JObj orphan; repo 3]) "kv" 3 w0).1 = Raise (KeyError "owner").
Proof.
  split_and!.
  - destruct (missing_items_asymmetry (serve_until 1 (repos 3)) "kv" 150 w0
                ltac:(lia)) as (Hlast & _).
    apply (Hlast [mkRequest "kv" 100 1] (mkRequest "kv" 50 2)
                 [(page_body (repos 3) (mkRequest "kv" 100 1), repos 3)]
                 rate_limited);
      [lia | vm_compute; reflexivity | | vm_compute; reflexivity..].
    cbn [replies]. apply Forall2_cons_2; [|apply Forall2_nil_2].
    split; vm_compute; reflexivity.
  - destruct (missing_items_asymmetry (serve_until 1 (repos 3)) "kv" 250 w0
                ltac:(lia)) as (_ & Hinner & _).
    apply (Hinner [mkRequest "kv" 100 1] (mkRequest "kv" 100 2)
                  [mkRequest "kv" 50 3]
                  [(page_body (repos 3) (mkRequest "kv" 100 1), repos 3)]
                  rate_limited);
      [vm_compute; reflexivity | discriminate | | vm_compute; reflexivity..].
    cbn [replies]. apply Forall2_cons_2; [|apply Forall2_nil_2].
    split; vm_compute; reflexivity.
  - destruct (missing_items_asymmetry (serve_until 0 (repos 3)) "kv" 5 w0
                ltac:(lia)) as (_ & _ & Hfirst & _).
    apply (Hfirst rate_limited); vm_compute; reflexivity.
  - destruct (missing_items_asymmetry (serve [repo 1; JObj orphan; repo 3]) "kv" 3 w0
                ltac:(lia)) as (_ & _ & _ & Howner).
    apply (Howner (JObj (page_body [repo 1; JObj orphan; repo 3] (mkRequest "kv" 3 1)))
                  (mkWorld [mkRequest "kv" 3 1] [])
                  [repo 1] orphan [repo 3]);
      [vm_compute; reflexivity.. | | vm_compute; reflexivity].
    apply Forall_cons_2; [|apply Forall_nil_2]. vm_compute. exact I.
Defined.

(** C10 as it was stated fails on a page that is neither the first nor the
    last: of the three pages of a run for 250 records the second comes
    without ['items'], and the run ends with [KeyError] instead of going on
    with an empty page. *)
Lemma missing_items_on_inner_page :
  let up := serve_until 1 (repos 3) in
  250 > 100 ∧
  up [mkRequest "kv" 100 1] (mkRequest "kv" 100 2) = Json (JObj rate_limited) ∧
  rate_limited !! "items" = None ∧
  _retrieve_data up "kv" 250 1 w0
  = (Raise (KeyError "items"),
     mkWorld [mkRequest "kv" 100 1; mkRequest "kv" 100 2] []) ∧
  ¬ is_Ok (main up "kv" 250 w0).1.
Proof.
  intros up. split_and!; [lia | vm_compute; reflexivity..|].
  vm_compute. intros [].
Qed.

(** * Further properties of the script *)

(** ** More on [_filter_dict] and the filtering pass *)

Lemma kept_kept K1 K2 (d : gmap string json) : kept K2 (kept K1 d) = kept (K1 ∩ K2) d.
Proof.
  apply map_eq. intros k. rewrite !lookup_kept.
  repeat case_decide; try done; set_solver.
Qed.

Lemma kept_idemp K (d : gmap string json) : kept K (kept K d) = kept K d.
Proof. rewrite kept_kept. f_equal. set_solver. Qed.

Lemma kept_insert K k v (d : gmap string json) :
  k ∈ K → kept K (<[k := v]> d) = <[k := v]> (kept K d).
Proof.
  intros Hk. apply map_eq. intros j. rewrite lookup_kept.
  destruct (decide (j = k)) as [->|Hne].
  - by rewrite decide_True, !lookup_insert_eq.
  - by rewrite !lookup_insert_ne, lookup_kept.
Qed.

(** X1: two calls of [_filter_dict] in a row do what one call with the
    intersection of the two key sets does, in whichever order they come. *)
Theorem filter_dict_compose (d : gmap string json) (K1 K2 : gset string) :
  ∃ d1 d1' d2 : gmap string json,
    _filter_dict (JObj d) K1 = Ok (JObj d1) ∧
    _filter_dict (JObj d1) K2 = Ok (JObj d2) ∧
    _filter_dict (JObj d) K2 = Ok (JObj d1') ∧
    _filter_dict (JObj d1') K1 = Ok (JObj d2) ∧
    _filter_dict (JObj d) (K1 ∩ K2) = Ok (JObj d2).
Proof.
  exists (kept K1 d), (kept K2 d), (kept (K1 ∩ K2) d).
  rewrite !filter_dict_kept, !kept_kept.
  split_and!; try done. do 3 f_equal. set_solver.
Qed.

(** X2: [_filter_dict] leaves a dictionary as it is when all its keys are in
    the key set, empties it when none is, and in every case leaves a part of
    what it was given: no entry is added or changed. *)
Theorem filter_dict_edges (d : gmap string json) (K : gset string) :
  (dom d ⊆ K → _filter_dict (JObj d) K = Ok (JObj d)) ∧
  (dom d ∩ K = ∅ → _filter_dict (JObj d) K = Ok (JObj ∅)) ∧
  (∀ d' : gmap string json, _filter_dict (JObj d) K = Ok (JObj d') → d' ⊆ d).
Proof.
  rewrite filter_dict_kept. split_and!.
  - intros Hsub. do 2 f_equal. apply map_eq. intros k. rewrite lookup_kept.
    case_decide; [done|]. symmetry. apply not_elem_of_dom. set_solver.
  - intros Hdisj. do 2 f_equal. apply map_eq. intros k.
    rewrite lookup_kept, lookup_empty.
    case_decide; [|done]. apply not_elem_of_dom. set_solver.
  - intros d' [= <-]. apply map_subseteq_spec. intros k x.
    rewrite lookup_kept. by case_decide.
Qed.

(** X3: the body of the loop of [main] succeeds on a dictionary whose
    ['owner'] is a dictionary, and leaves it with its allowed fields and an
    owner with its allowed fields; a record without ['owner'] raises
    [KeyError], a record or an owner that is no dictionary
    [AttributeError]. *)
Theorem filter_item_outcome (item : json) :
  filter_item item
  = match item with
    | JObj m =>
        match m !! "owner" with
        | Some (JObj o) =>
            Ok (JObj (<["owner" := JObj (kept OWNER_KEYS o)]> (kept DATA_KEYS m)))
        | Some _ => Raise AttributeError
        | None => Raise (KeyError "owner")
        end
    | _ => Raise AttributeError
    end.
Proof.
  unfold filter_item. destruct item as [| | | | | |m]; try done.
  rewrite filter_dict_kept. simpl.
  rewrite lookup_kept, decide_True by apply owner_in_DATA_KEYS.
  destruct (m !! "owner") as [[| | | | | |o]|]; try done.
  simpl. by rewrite filter_dict_kept.
Qed.

Lemma trimmed_eq item item' :
  trimmed item item' →
  ∃ m o : gmap string json,
    item = JObj m ∧ m !! "owner" = Some (JObj o) ∧
    item' = JObj (<["owner" := JObj (kept OWNER_KEYS o)]> (kept DATA_KEYS m)).
Proof.
  intros (m & o & m' & o' & -> & Ho & Hm' & Ho' & ->).
  rewrite filter_dict_kept in Hm', Ho'. simplify_eq. eauto.
Qed.

(** A record that went through the body of the loop goes through it again
    unchanged. *)
Lemma filter_item_fixed item item' :
  trimmed item item' → filter_item item' = Ok item'.
Proof.
  intros (m & o & -> & Ho & ->)%trimmed_eq.
  unfold filter_item. rewrite filter_dict_kept. simpl.
  rewrite kept_insert by apply owner_in_DATA_KEYS.
  rewrite kept_idemp, lookup_insert_eq. simpl.
  rewrite filter_dict_kept. simpl.
  by rewrite kept_idemp, insert_insert_eq.
Qed.

(** X4: the filtering pass keeps the number of records, and a second pass
    over its result changes nothing. *)
Theorem filter_pass_idempotent (l : list json) (items' : json) :
  filter_items (JArr l) = Ok items' →
  ∃ l', items' = JArr l' ∧ length l' = length l ∧ filter_items items' = Ok items'.
Proof.
  intros [(l0 & l' & [= <-] & -> & Hl)|[-> [?|?]]]%filter_items_Ok; [|done..].
  exists l'. split; [done|]. split; [symmetry; by eapply Forall2_length|].
  unfold filter_items. simpl.
  rewrite (for_each_Forall2 filter_item l' l'); [done|].
  clear -Hl. induction Hl as [|x x' l l' Hx _ IH]; constructor; [|done].
  by eapply filter_item_fixed.
Qed.

(** X5: the filtering pass changes no value it keeps: in every record the
    allowed fields other than ['owner'] hold what they held, and so do the
    allowed fields of the owner. *)
Theorem filter_pass_keeps_values (l l' : list json) (i : nat)
    (m m' : gmap string json) :
  filter_items (JArr l) = Ok (JArr l') →
  l !! i = Some (JObj m) →
  l' !! i = Some (JObj m') →
  (∀ k, k ∈ DATA_KEYS → k ≠ "owner" → m' !! k = m !! k) ∧
  ∃ o o' : gmap string json,
    m !! "owner" = Some (JObj o) ∧ m' !! "owner" = Some (JObj o') ∧
    ∀ k, k ∈ OWNER_KEYS → o' !! k = o !! k.
Proof.
  intros [(l0 & l0' & [= <-] & [= <-] & Hl)|[_ [?|?]]]%filter_items_Ok Hi Hi';
    [|done..].
  pose proof (Forall2_lookup_lr _ _ _ _ _ _ Hl Hi Hi') as Htrim.
  apply trimmed_eq in Htrim as (m0 & o & [= <-] & Ho & [= ->]).
  split.
  - intros k Hk Hne. by rewrite lookup_insert_ne, lookup_kept, decide_True.
  - exists o, (kept OWNER_KEYS o). rewrite lookup_insert_eq.
    split_and!; [done..|]. intros k Hk. by rewrite lookup_kept, decide_True.
Qed.

(** ** The requests of a run *)

Lemma asked_cons rq rqs : asked (rq :: rqs) = rq_per_page rq + asked rqs.
Proof. reflexivity. Qed.

(** Every prefix of the plan asks for the keyword, for 1 to 100 results a
    page, for consecutive pages, and for no more than [limit] results in
    all; the whole plan asks for [limit] results. *)
Lemma plan_prefix_invariants keyw limit :
  ∀ page (n : nat),
    1 ≤ limit →
    let issued := take n (plan keyw limit page) in
    Forall (λ rq, rq_keyw rq = keyw ∧ 1 ≤ rq_per_page rq ≤ 100) issued ∧
    rq_page <$> issued = seqZ page (Z.of_nat (length issued)) ∧
    asked issued ≤ limit ∧
    (n = length (plan keyw limit page) → asked issued = limit).
Proof.
  induction limit as [limit Hle|limit Hgt IH] using limit_ind; intros page n Hpos.
  - rewrite plan_base by done. destruct n as [|n]; simpl.
    + split_and!; [constructor|done|lia|done].
    + rewrite take_nil. simpl.
      split_and!; [|done|case_decide; lia|case_decide; lia].
      apply Forall_singleton. simpl. split; [done|case_decide; lia].
  - rewrite plan_step by done. destruct n as [|n].
    + simpl. split_and!; [constructor|done|lia|done].
    + cbn [firstn]. cbv zeta.
      destruct (IH (page + 1) n ltac:(lia)) as (Hall & Hpages & Hsum & Hfull).
      rewrite fmap_cons, asked_cons, Hpages. cbn [length rq_page rq_per_page].
      split_and!.
      * constructor; [simpl; split; [done|lia]|done].
      * rewrite (seqZ_cons page) by lia. do 2 f_equal; lia.
      * lia.
      * intros [= Hn]. specialize (Hfull Hn). lia.
Qed.

(** X6: whatever the upstream answers, the requests of a call for at least
    one result all carry the keyword, ask for 1 to 100 results each and for
    consecutive pages from [page] on; together they ask for at most
    [limit] results, and for exactly [limit] when the call returns. *)
Theorem requests_of_a_run up keyw limit page w r w' :
  1 ≤ limit →
  _retrieve_data up keyw limit page w = (r, w') →
  ∃ issued : list Request,
    requests w' = requests w ++ issued ∧
    Forall (λ rq, rq_keyw rq = keyw ∧ 1 ≤ rq_per_page rq ≤ 100) issued ∧
    rq_page <$> issued = seqZ page (Z.of_nat (length issued)) ∧
    asked issued ≤ limit ∧
    (is_Ok r → asked issued = limit).
Proof.
  intros Hpos (_ & n & Hn & Hreq & Hall)%retrieve_trace.
  destruct (plan_prefix_invariants keyw limit page n Hpos)
    as (Hrqs & Hpages & Hsum & Hfull).
  exists (take n (plan keyw limit page)).
  split_and!; try done. intros Hok. auto.
Qed.

(** X14: a run of [main] issues at most ten requests, whatever the limit and
    whatever the upstream answers. *)
Theorem main_request_budget up keyword limit w :
  ∃ issued : list Request,
    requests (main up keyword limit w).2 = requests w ++ issued ∧
    (length issued ≤ 10)%nat.
Proof.
  destruct (decide (limit < 1 ∨ limit > 1000)) as [Hout|Hin].
  { rewrite main_out_of_range by done. exists []. simpl.
    split; [by rewrite app_nil_r|lia]. }
  rewrite main_in_range by lia.
  destruct (_retrieve_data up keyword limit 1 w) as [r w1] eqn:Hrun.
  apply retrieve_trace in Hrun as (_ & n & Hn & Hreq & _).
  exists (take n (plan keyword limit 1)).
  assert (length (take n (plan keyword limit 1)) ≤ 10)%nat.
  { pose proof (length_plan keyword limit 1) as Hlen.
    assert (ceil_div limit 100 ≤ 10).
    { unfold ceil_div. assert ((limit + 100 - 1) / 100 < 11); [|lia].
      apply Z.div_lt_upper_bound; lia. }
    rewrite length_take. lia. }
  split; [|done].
  destruct r as [data|e]; [|done].
  by destruct (build_report keyword limit data).
Qed.

Lemma length_concat_asked (rqs : list Request)
    (ps : list (gmap string json * list json)) :
  Forall2 (λ rq p, Z.of_nat (length p.2) ≤ rq_per_page rq) rqs ps →
  Z.of_nat (length (concat ps.*2)) ≤ asked rqs.
Proof.
  induction 1 as [|rq p rqs ps Hp _ IH]; [done|].
  rewrite fmap_cons, asked_cons. cbn [concat]. rewrite length_app. lia.
Qed.

(** X7: when every request of a call for at least one result is answered
    with a page of no more items than it asked for, the call returns no
    more than [limit] items. *)
Theorem retrieved_at_most_limit up keyw limit page w
    (ps : list (gmap string json * list json)) :
  1 ≤ limit →
  Forall2 is_page (replies up (requests w) (plan keyw limit page)) ps →
  Forall2 (λ rq p, Z.of_nat (length p.2) ≤ rq_per_page rq)
          (plan keyw limit page) ps →
  ∃ (m : gmap string json) items,
    (_retrieve_data up keyw limit page w).1 = Ok (JObj m) ∧
    m !! "items" = Some (JArr items) ∧
    Z.of_nat (length items) ≤ limit.
Proof.
  intros Hpos Hpages Hsizes.
  destruct (retrieve_pages up keyw limit page w ps Hpages) as (m & l & rest & _ & ->).
  eexists _, _. split; [done|]. split; [apply lookup_insert_eq|].
  apply length_concat_asked in Hsizes.
  destruct (plan_prefix_invariants keyw limit page
              (length (plan keyw limit page)) Hpos) as (_ & _ & _ & Hfull).
  rewrite firstn_all in Hfull. specialize (Hfull eq_refl). lia.
Qed.

(** ** Runs that fail *)

(** A request that gets no reply, or a reply that is not JSON, ends the call
    at that request, wherever in the plan it is. *)
Lemma retrieve_transport_failure up keyw limit :
  ∀ page w before rq after ps e,
    plan keyw limit page = before ++ rq :: after →
    Forall2 is_page (replies up (requests w) before) ps →
    (up (requests w ++ before) rq = NotJson ∧ e = ValueError
     ∨ up (requests w ++ before) rq = Unreachable ∧ e = ConnectionError) →
    _retrieve_data up keyw limit page w
    = (Raise e, mkWorld (requests w ++ before ++ [rq]) (stdout w)).
Proof.
  induction limit as [limit Hle|limit Hgt IH] using limit_ind;
    intros page w before rq after ps e.
  - rewrite retrieve_base, plan_base by done.
    destruct before as [|? [|? ?]]; intros; simplify_eq/=.
    rewrite app_nil_r in *. unfold logged.
    by destruct_or!; destruct_and!; simplify_eq; match goal with H : _ = _ |- _ => rewrite H end.
  - rewrite retrieve_step, plan_step by done.
    destruct before as [|rq0 before]; simpl.
    + intros [= <- _] _. rewrite app_nil_r. unfold logged.
      by intros [[-> ->]|[-> ->]].
    + intros [= <- Hplan] Hps Hrq.
      apply Forall2_cons_inv_l in Hps as ([m0 l0] & ps' & [Hr Hm0] & Hps' & ->).
      simpl in *. rewrite Hr. simpl. rewrite Hm0. simpl.
      rewrite (IH (page + 1) (logged w (mkRequest keyw 100 page))
                  before rq after ps' e Hplan Hps').
      * unfold logged. simpl. by rewrite <- app_assoc.
      * simpl. by rewrite <- app_assoc.
Qed.

(** X8: in a run of [main], a request that gets no reply ends the run with
    [ConnectionError] and a reply that is not JSON with [ValueError], right
    after that request and with nothing printed, whichever page it was
    for. *)
Theorem transport_failure_ends_run up keyword limit w before rq after
    (ps : list (gmap string json * list json)) :
  1 ≤ limit ≤ 1000 →
  plan keyword limit 1 = before ++ rq :: after →
  Forall2 is_page (replies up (requests w) before) ps →
  (up (requests w ++ before) rq = NotJson →
   main up keyword limit w
   = (Raise ValueError, mkWorld (requests w ++ before ++ [rq]) (stdout w))) ∧
  (up (requests w ++ before) rq = Unreachable →
   main up keyword limit w
   = (Raise ConnectionError, mkWorld (requests w ++ before ++ [rq]) (stdout w))).
Proof.
  intros Hlimit Hplan Hps. split; intros Hrq; rewrite main_in_range by done.
  - by rewrite (retrieve_transport_failure up keyword limit 1 w before rq after
                  ps ValueError Hplan Hps) by auto.
  - by rewrite (retrieve_transport_failure up keyword limit 1 w before rq after
                  ps ConnectionError Hplan Hps) by auto.
Qed.

(** X9: for a limit in range, a run of [main] that raises has printed
    nothing and ends with status 1; a run that does not has printed one
    dump and ends with status 0. *)
Theorem failed_run_prints_nothing up keyword limit w :
  1 ≤ limit ≤ 1000 →
  (is_Ok (main up keyword limit w).1 →
     exit_status (main up keyword limit w).1 = 0 ∧
     ∃ doc, stdout (main up keyword limit w).2 = stdout w ++ [JsonDumps doc 4]) ∧
  (¬ is_Ok (main up keyword limit w).1 →
     exit_status (main up keyword limit w).1 = 1 ∧
     stdout (main up keyword limit w).2 = stdout w).
Proof.
  intros Hlimit. rewrite main_in_range by done.
  pose proof (retrieve_no_exit up keyword limit 1 w) as Hne.
  destruct (_retrieve_data up keyword limit 1 w) as [[data|e] w1] eqn:Hrun;
    apply retrieve_stdout in Hrun; simpl in *.
  - pose proof (build_report_no_exit keyword limit data) as Hne'.
    destruct (build_report keyword limit data) as [doc|e]; simpl.
    + split; [|done]. intros _. split; [done|]. exists doc. by rewrite Hrun.
    + split; [done|]. intros _. split; [|done].
      destruct e; try done. by destruct (Hne' status).
  - split; [done|]. intros _. split; [|done].
    destruct e; try done. by destruct (Hne status).
Qed.

(** X10: retrieved data without ['total_count'] ends the run with
    [KeyError], after the filtering pass and with nothing printed. *)
Theorem missing_total_count up keyword limit w (m : gmap string json)
    items items' w1 :
  1 ≤ limit ≤ 1000 →
  _retrieve_data up keyword limit 1 w = (Ok (JObj m), w1) →
  m !! "items" = Some items →
  filter_items items = Ok items' →
  m !! "total_count" = None →
  main up keyword limit w = (Raise (KeyError "total_count"), w1) ∧
  stdout w1 = stdout w.
Proof.
  intros Hlimit Hrun Hitems Hpass Htotal.
  rewrite main_in_range, Hrun by done. unfold build_report. simpl.
  rewrite Hitems. simpl. rewrite Hpass. simpl.
  rewrite lookup_insert_ne, Htotal by done.
  split; [done|]. by eapply retrieve_stdout.
Qed.

(** X11: with more than 100 results to fetch, a first reply that is no
    dictionary ends the call with [TypeError] and one whose ['items'] is no
    list with [AttributeError], in both cases before any further request. *)
Theorem malformed_first_page_above_100 up keyw limit page w :
  limit > 100 →
  (∀ body,
     up (requests w) (mkRequest keyw 100 page) = Json body →
     (∀ m : gmap string json, body ≠ JObj m) →
     _retrieve_data up keyw limit page w
     = (Raise TypeError, logged w (mkRequest keyw 100 page))) ∧
  (∀ (m : gmap string json) v,
     up (requests w) (mkRequest keyw 100 page) = Json (JObj m) →
     m !! "items" = Some v →
     (∀ l, v ≠ JArr l) →
     _retrieve_data up keyw limit page w
     = (Raise AttributeError, logged w (mkRequest keyw 100 page))).
Proof.
  intros Hgt. split.
  - intros body Hbody Hno. rewrite retrieve_step, Hbody by done.
    destruct body; try done. by destruct (Hno m).
  - intros m v Hbody Hv Hno. rewrite retrieve_step, Hbody by done.
    simpl. rewrite Hv. simpl.
    destruct v; try done. by destruct (Hno l).
Qed.

(** X12: the loop of [main] over an ['items'] that is no list: [None], a
    boolean or a number is not iterable and raises [TypeError]; the loop
    does not run over an empty string or an empty dictionary, which stay as
    they are; it raises [AttributeError] on the first character or key of a
    non-empty one. *)
Theorem filter_items_not_a_list (v : json) :
  (∀ l, v ≠ JArr l) →
  filter_items v
  = match v with
    | JStr s => match s with EmptyString => Ok v | _ => Raise AttributeError end
    | JObj m => match map_to_list m with [] => Ok v | _ => Raise AttributeError end
    | _ => Raise TypeError
    end.
Proof.
  intros Hno. unfold filter_items. destruct v as [| | | |s|l|m]; try done; simpl.
  - by destruct s.
  - by destruct (Hno l).
  - rewrite for_each_strings. by destruct (map_to_list m).
Qed.

(** ** The URLs of a run *)

Lemma pretty_N_go_plain x s : plain s → plain (pretty_N_go x s).
Proof.
  revert s. induction (N.lt_wf_0 x) as [x _ IH]; intros s Hs.
  assert (x = 0 ∨ 0 < x)%N as [->|Hx] by lia; [by rewrite pretty_N_go_0|].
  rewrite pretty_N_go_step by done. apply IH; [by apply N.div_lt|].
  split; [|done]. unfold pretty_N_char. by repeat case_match.
Qed.

Lemma pretty_Z_plain (z : Z) : plain (pretty z).
Proof.
  assert (∀ x : positive, plain (pretty x)) as Hpos.
  { intros x. unfold pretty, pretty_positive, pretty, pretty_N.
    case_decide; [done|]. by apply pretty_N_go_plain. }
  destruct z as [|x|x]; [done|apply Hpos|].
  split; [done|]. apply Hpos.
Qed.

(** Two strings that agree after plain prefixes and a separator have the
    same prefix and the same rest. *)
Lemma plain_split s1 s2 t1 t2 :
  plain s1 → plain s2 →
  s1 +:+ "&" +:+ t1 = s2 +:+ "&" +:+ t2 →
  s1 = s2 ∧ t1 = t2.
Proof.
  revert s2. induction s1 as [|c s1 IH]; intros [|c' s2] Hs1 Hs2 Heq;
    lazy [String.append] in Heq.
  - by injection Heq as ->.
  - injection Heq as <- _. by destruct Hs2 as [[] _].
  - injection Heq as -> _. by destruct Hs1 as [[] _].
  - injection Heq as -> Heq. destruct Hs1 as [_ Hs1], Hs2 as [_ Hs2].
    destruct (IH s2 Hs1 Hs2 Heq) as [-> ->]. done.
Qed.

(** Two requests for the same keyword with the same URL are the same. *)
Lemma url_inj rq rq' :
  rq_keyw rq = rq_keyw rq' → url rq = url rq' → rq = rq'.
Proof.
  destruct rq as [k n p], rq' as [k' n' p']. unfold url. simpl. intros <- Heq.
  do 4 apply String.app_inj in Heq.
  apply plain_split in Heq as [Hn Hp]; [|apply pretty_Z_plain..].
  apply (inj pretty) in Hn as ->.
  apply (String.app_inj "page=") in Hp. apply (inj pretty) in Hp as ->.
  done.
Qed.

Lemma NoDup_plan keyw limit page : NoDup (plan keyw limit page).
Proof.
  unfold plan. apply NoDup_fmap_2_strong; [|apply NoDup_seqZ].
  intros i j _ _ [= _ Hij]. lia.
Qed.

Lemma plan_keyw keyw limit page rq :
  rq ∈ plan keyw limit page → rq_keyw rq = keyw.
Proof. unfold plan. by intros (i & -> & _)%list_elem_of_fmap. Qed.

(** X15: the requests of one call have pairwise distinct URLs: no page is
    asked for twice. *)
Theorem distinct_urls up keyw limit page w r w' :
  _retrieve_data up keyw limit page w = (r, w') →
  ∃ issued : list Request,
    requests w' = requests w ++ issued ∧ NoDup (url <$> issued).
Proof.
  intros (_ & n & _ & Hreq & _)%retrieve_trace.
  exists (take n (plan keyw limit page)). split; [done|].
  apply NoDup_fmap_2_strong.
  - intros rq rq' Hrq%subseteq_take%plan_keyw Hrq'%subseteq_take%plan_keyw.
    apply url_inj. congruence.
  - eapply sublist_NoDup; [apply NoDup_plan|apply sublist_take].
Qed.

(** ** Against an API that honours [per_page] and [page] *)

Lemma lookup_page_body_total repos rq :
  page_body repos rq !! "total_count" = Some (JInt (Z.of_nat (length repos))).
Proof. unfold page_body. by simplify_map_eq. Qed.

(** In pages of 100 throughout, the pages line up: a call for a multiple of
    100 gets the records that follow the pages before [page]. *)
Lemma retrieve_hundreds repos keyw limit :
  ∀ page w,
    1 ≤ page → 1 ≤ limit → (100 | limit) →
    (_retrieve_data (serve repos) keyw limit page w).1
    = Ok (JObj (<["items" :=
                    JArr (take (Z.to_nat limit)
                               (drop (Z.to_nat (page - 1) * 100) repos))]>
                 (page_body repos (mkRequest keyw 100 page)))).
Proof.
  induction limit as [limit Hle|limit Hgt IH] using limit_ind;
    intros page w Hpage Hpos [q Hq].
  - assert (limit = 100) as -> by lia.
    rewrite retrieve_base by done. simpl.
    by rewrite insert_id by apply lookup_page_body_items.
  - rewrite retrieve_step by done. simpl.
    rewrite lookup_page_body_items. simpl.
    specialize (IH (page + 1) (logged w (mkRequest keyw 100 page))
                   ltac:(lia) ltac:(lia)).
    destruct (_retrieve_data (serve repos) keyw (limit - 100) (page + 1) _)
      as [r w1].
    simpl in IH. rewrite IH by (exists (q - 1); lia). simpl.
    rewrite lookup_insert_eq. simpl. do 4 f_equal.
    unfold page_items. simpl.
    replace (Z.to_nat (page + 1 - 1) * 100)%nat
      with (Z.to_nat (page - 1) * 100 + 100)%nat by lia.
    rewrite <- drop_drop, take_take_drop. f_equal. lia.
Qed.

(** X13: against an upstream that answers every request with the slice of
    one list of records that [per_page] and [page] designate, a call for at
    most 100 records, or for a multiple of 100, returns the first [limit]
    records of the list in order (all of them when there are fewer), with
    the size of the list as ['total_count']. *)
Theorem honest_api_exact repos keyw limit w :
  1 ≤ limit →
  limit ≤ 100 ∨ (100 | limit) →
  ∃ m : gmap string json,
    (_retrieve_data (serve repos) keyw limit 1 w).1 = Ok (JObj m) ∧
    m !! "items" = Some (JArr (take (Z.to_nat limit) repos)) ∧
    m !! "total_count" = Some (JInt (Z.of_nat (length repos))).
Proof.
  intros Hpos [Hle|Hdiv].
  - rewrite retrieve_base by done. simpl. eexists. split; [done|].
    split; [|apply lookup_page_body_total].
    rewrite lookup_page_body_items. unfold page_items. simpl.
    do 3 f_equal. case_decide; [done|]. f_equal. lia.
  - rewrite retrieve_hundreds by (done || lia). eexists. split; [done|].
    split; [by rewrite lookup_insert_eq|].
    rewrite lookup_insert_ne by done. apply lookup_page_body_total.
Qed.

(** X17: against such an upstream, with records that are all dictionaries
    with a dictionary as owner, a run of [main] for at most 100 records or
    for a multiple of 100 prints the size of the list as
    ['total_repositories'] and, as ['repo_list'], the first [limit] records
    of the list in order, each one trimmed. *)
Theorem honest_api_report repos keyword limit w :
  1 ≤ limit ≤ 1000 →
  limit ≤ 100 ∨ (100 | limit) →
  Forall (λ x, is_Ok (filter_item x)) repos →
  ∃ l',
    (main (serve repos) keyword limit w).1 = Ok tt ∧
    printed_report (main (serve repos) keyword limit w).2
    = Some (json_dict keyword limit (JInt (Z.of_nat (length repos))) (JArr l')) ∧
    Forall2 trimmed (take (Z.to_nat limit) repos) l'.
Proof.
  intros Hlimit Hshape Hrepos.
  assert (∃ m : gmap string json,
    (_retrieve_data (serve repos) keyword limit 1 w).1 = Ok (JObj m) ∧
    m !! "items" = Some (JArr (take (Z.to_nat limit) repos)) ∧
    m !! "total_count" = Some (JInt (Z.of_nat (length repos))))
    as (m & Hrun & Hitems & Htotal).
  { destruct Hshape as [Hle|Hdiv].
    - rewrite retrieve_base by done. simpl. eexists. split; [done|].
      split; [|apply lookup_page_body_total].
      rewrite lookup_page_body_items. unfold page_items. simpl.
      do 3 f_equal. case_decide; [done|]. f_equal. lia.
    - rewrite retrieve_hundreds by (done || lia). eexists. split; [done|].
      split; [by rewrite lookup_insert_eq|].
      rewrite lookup_insert_ne by done. apply lookup_page_body_total. }
  destruct (Forall_is_Ok filter_item (take (Z.to_nat limit) repos))
    as [l' Hl']; [by apply Forall_take|].
  exists l'. rewrite main_in_range by done.
  destruct (_retrieve_data (serve repos) keyword limit 1 w) as [r w1].
  simpl in Hrun. subst r.
  rewrite (build_report_list keyword limit m _ l' _ Hitems Htotal)
    by by apply for_each_Forall2.
  simpl. split; [done|]. split.
  - unfold printed_report. simpl. by rewrite last_snoc.
  - eapply Forall2_impl; [exact Hl'|]. apply filter_item_Ok.
Qed.

(** ** The reply to the last request *)

(** What the reply to the last of several requests makes the call raise,
    the call raises. *)
Lemma retrieve_last_raises up keyw limit :
  ∀ page w init last_rq ps last e,
    limit > 100 →
    plan keyw limit page = init ++ [last_rq] →
    Forall2 is_page (replies up (requests w) init) ps →
    up (requests w ++ init) last_rq = Json last →
    rbind (Py.get last "items" (JArr [])) Py.iter = Raise e →
    (_retrieve_data up keyw limit page w).1 = Raise e.
Proof.
  induction limit as [limit Hle|limit Hgt IH] using limit_ind;
    intros page w init last_rq ps last e Hlimit; [lia|].
  rewrite retrieve_step, plan_step by done.
  set (rq := mkRequest keyw 100 page).
  destruct (plan_head keyw (limit - 100) (page + 1)) as [tl Htl].
  destruct init as [|rq0 init]; simpl.
  { rewrite Htl. intros [= _ ?]. }
  intros [= <- Hplan] Hps Hlast Hnew.
  apply Forall2_cons_inv_l in Hps as ([m l] & ps' & [Hr Hm] & Hps' & ->).
  simpl in *. rewrite Hr. simpl. rewrite Hm. simpl.
  destruct (decide (limit - 100 > 100)) as [Hmore|Hdone].
  - specialize (IH (page + 1) (logged w rq) init last_rq ps' last e Hmore Hplan Hps').
    simpl in IH. rewrite <- app_assoc in IH. specialize (IH Hlast Hnew).
    destruct (_retrieve_data up keyw (limit - 100) (page + 1) _) as [[next|e'] w1];
      by simplify_eq/=.
  - rewrite plan_base in Hplan by lia.
    destruct init as [|? [|? ?]]; simplify_eq/=.
    rewrite retrieve_base by lia. simpl. rewrite Hlast. simpl. by rewrite Hnew.
Qed.

(** X16: of the replies to the last of several requests only a dictionary
    without ['items'] passes for an empty page: a reply that is no
    dictionary ends the call with [AttributeError], and a dictionary whose
    ['items'] is [None], a boolean or a number with [TypeError]. *)
Theorem malformed_last_page up keyw limit page w init last_rq
    (ps : list (gmap string json * list json)) :
  limit > 100 →
  plan keyw limit page = init ++ [last_rq] →
  Forall2 is_page (replies up (requests w) init) ps →
  (∀ last,
     up (requests w ++ init) last_rq = Json last →
     (∀ m : gmap string json, last ≠ JObj m) →
     (_retrieve_data up keyw limit page w).1 = Raise AttributeError) ∧
  (∀ (m : gmap string json) v,
     up (requests w ++ init) last_rq = Json (JObj m) →
     m !! "items" = Some v →
     Py.iter v = Raise TypeError →
     (_retrieve_data up keyw limit page w).1 = Raise TypeError).
Proof.
  intros Hgt Hplan Hps. split.
  - intros last Hlast Hno.
    eapply retrieve_last_raises; [done..|].
    destruct last; try done. by destruct (Hno m).
  - intros m v Hlast Hv Hiter.
    eapply retrieve_last_raises; [done..|]. simpl. by rewrite Hv.
Qed.

(** ** The further properties at work *)

Lemma filter_dict_edges_witness :
  _filter_dict (JObj orphan) DATA_KEYS = Ok (JObj orphan) ∧
  _filter_dict (JObj orphan) {[ "login"; "url" ]} = Ok (JObj ∅) ∧
  orphan ⊆ orphan.
Proof.
  split; [|split].
  - apply (filter_dict_edges orphan DATA_KEYS).
    apply (bool_decide_unpack _). vm_compute. exact I.
  - apply (filter_dict_edges orphan {[ "login"; "url" ]}).
    apply (bool_decide_unpack _). vm_compute. exact I.
  - apply (filter_dict_edges orphan DATA_KEYS). vm_compute. reflexivity.
Defined.

Lemma filter_pass_idempotent_witness :
  let items' := returned (filter_items (JArr [repo 1; repo 2])) in
  ∃ l', items' = JArr l' ∧ length l' = length [repo 1; repo 2] ∧
        filter_items items' = Ok items'.
Proof.
  intros items'. apply (filter_pass_idempotent [repo 1; repo 2] items').
  vm_compute. reflexivity.
Defined.

Lemma filter_pass_keeps_values_witness :
  (∀ k, k ∈ DATA_KEYS → k ≠ "owner" → trimmed_fields 1 !! k = repo_fields 1 !! k) ∧
  ∃ o o' : gmap string json,
    repo_fields 1 !! "owner" = Some (JObj o) ∧
    trimmed_fields 1 !! "owner" = Some (JObj o') ∧
    ∀ k, k ∈ OWNER_KEYS → o' !! k = o !! k.
Proof.
  apply (filter_pass_keeps_values [repo 1] [JObj (trimmed_fields 1)] 0
           (repo_fields 1) (trimmed_fields 1));
    [vm_compute; reflexivity | reflexivity | reflexivity].
Defined.

Lemma requests_of_a_run_witness :
  let run := _retrieve_data (serve (repos 3)) "kv-store" 150 1 w0 in
  ∃ issued : list Request,
    requests run.2 = requests w0 ++ issued ∧
    Forall (λ rq, rq_keyw rq = "kv-store" ∧ 1 ≤ rq_per_page rq ≤ 100) issued ∧
    rq_page <$> issued = seqZ 1 (Z.of_nat (length issued)) ∧
    asked issued ≤ 150 ∧
    (is_Ok run.1 → asked issued = 150).
Proof.
  intros run.
  apply (requests_of_a_run (serve (repos 3)) "kv-store" 150 1 w0 run.1 run.2);
    [lia|apply surjective_pairing].
Defined.

Lemma retrieved_at_most_limit_witness :
  ∃ (m : gmap string json) items,
    (_retrieve_data (serve (repos 3)) "kv-store" 150 1 w0).1 = Ok (JObj m) ∧
    m !! "items" = Some (JArr items) ∧
    Z.of_nat (length items) ≤ 150.
Proof.
  apply (retrieved_at_most_limit (serve (repos 3)) "kv-store" 150 1 w0
           [(page_body (repos 3) (mkRequest "kv-store" 100 1), repos 3);
            (page_body (repos 3) (mkRequest "kv-store" 50 2), [])]);
    [lia| |];
    replace (plan "kv-store" 150 1)
      with [mkRequest "kv-store" 100 1; mkRequest "kv-store" 50 2]
      by (vm_compute; reflexivity).
  - cbn [replies].
    repeat (apply Forall2_cons_2; [split; vm_compute; reflexivity|]).
    apply Forall2_nil_2.
  - repeat (apply Forall2_cons_2; [vm_compute; discriminate|]).
    apply Forall2_nil_2.
Defined.

Lemma transport_failure_ends_run_witness :
  main garbled "kv" 5 w0
  = (Raise ValueError, mkWorld (requests w0 ++ [] ++ [mkRequest "kv" 5 1]) (stdout w0)) ∧
  main (scripted [JObj (canned_page 3 (repos_from 1 2))]) "kv" 150 w0
  = (Raise ConnectionError,
     mkWorld (requests w0 ++ [mkRequest "kv" 100 1] ++ [mkRequest "kv" 50 2])
             (stdout w0)).
Proof.
  split.
  - apply (transport_failure_ends_run garbled "kv" 5 w0 [] (mkRequest "kv" 5 1) [] []);
      [lia | vm_compute; reflexivity | apply Forall2_nil_2 | reflexivity].
  - apply (transport_failure_ends_run
             (scripted [JObj (canned_page 3 (repos_from 1 2))]) "kv" 150 w0
             [mkRequest "kv" 100 1] (mkRequest "kv" 50 2) []
             [(canned_page 3 (repos_from 1 2), repos_from 1 2)]);
      [lia | vm_compute; reflexivity | | vm_compute; reflexivity].
    cbn [replies]. apply Forall2_cons_2; [|apply Forall2_nil_2].
    split; vm_compute; reflexivity.
Defined.

Lemma failed_run_prints_nothing_witness :
  (exit_status (main (scripted [JObj (canned_page 42 [repo 1])]) "raft" 1 w0).1 = 0 ∧
   ∃ doc, stdout (main (scripted [JObj (canned_page 42 [repo 1])]) "raft" 1 w0).2
          = stdout w0 ++ [JsonDumps doc 4]) ∧
  (exit_status (main garbled "raft" 1 w0).1 = 1 ∧
   stdout (main garbled "raft" 1 w0).2 = stdout w0).
Proof.
  split.
  - apply (failed_run_prints_nothing
             (scripted [JObj (canned_page 42 [repo 1])]) "raft" 1 w0); [lia|].
    vm_compute. exact I.
  - apply (failed_run_prints_nothing garbled "raft" 1 w0); [lia|].
    vm_compute. intros [].
Defined.

Lemma missing_total_count_witness :
  main (scripted [JObj no_count]) "kv" 1 w0
  = (Raise (KeyError "total_count"), mkWorld [mkRequest "kv" 1 1] []) ∧
  stdout (mkWorld [mkRequest "kv" 1 1] []) = stdout w0.
Proof.
  apply (missing_total_count (scripted [JObj no_count]) "kv" 1 w0 no_count
           (JArr [repo 1]) (JArr [JObj (trimmed_fields 1)]));
    [lia | vm_compute; reflexivity..].
Defined.

Lemma malformed_first_page_above_100_witness :
  _retrieve_data (scripted [JArr []]) "kv" 150 1 w0
  = (Raise TypeError, logged w0 (mkRequest "kv" 100 1)) ∧
  _retrieve_data (scripted [JObj null_items]) "kv" 150 1 w0
  = (Raise AttributeError, logged w0 (mkRequest "kv" 100 1)).
Proof.
  split.
  - apply (proj1 (malformed_first_page_above_100 (scripted [JArr []]) "kv" 150 1 w0
                    ltac:(lia)) (JArr [])); [reflexivity|discriminate].
  - apply (proj2 (malformed_first_page_above_100 (scripted [JObj null_items])
                    "kv" 150 1 w0 ltac:(lia)) null_items JNull);
      [reflexivity | vm_compute; reflexivity | discriminate].
Defined.

Lemma filter_items_not_a_list_witness :
  filter_items JNull = Raise TypeError ∧
  filter_items (JStr "") = Ok (JStr "") ∧
  filter_items (JStr "abc") = Raise AttributeError.
Proof.
  split; [|split].
  - apply (filter_items_not_a_list JNull). discriminate.
  - apply (filter_items_not_a_list (JStr "")). discriminate.
  - apply (filter_items_not_a_list (JStr "abc")). discriminate.
Defined.

Lemma honest_api_exact_witness :
  ∃ m : gmap string json,
    (_retrieve_data (serve (repos 3)) "kv" 200 1 w0).1 = Ok (JObj m) ∧
    m !! "items" = Some (JArr (take (Z.to_nat 200) (repos 3))) ∧
    m !! "total_count" = Some (JInt (Z.of_nat (length (repos 3)))).
Proof.
  apply (honest_api_exact (repos 3) "kv" 200 w0); [lia|].
  right. exists 2. reflexivity.
Defined.

Lemma distinct_urls_witness :
  let run := _retrieve_data (serve (repos 3)) "kv" 250 1 w0 in
  ∃ issued : list Request,
    requests run.2 = requests w0 ++ issued ∧ NoDup (url <$> issued).
Proof.
  intros run.
  apply (distinct_urls (serve (repos 3)) "kv" 250 1 w0 run.1 run.2).
  apply surjective_pairing.
Defined.

Lemma malformed_last_page_witness :
  (_retrieve_data
     (scripted [JObj (canned_page 3 (repos_from 1 2)); JArr []]) "kv" 150 1 w0).1
  = Raise AttributeError ∧
  (_retrieve_data
     (scripted [JObj (canned_page 3 (repos_from 1 2)); JObj null_items]) "kv" 150 1 w0).1
  = Raise TypeError.
Proof.
  split.
  - apply (proj1 (malformed_last_page
                    (scripted [JObj (canned_page 3 (repos_from 1 2)); JArr []])
                    "kv" 150 1 w0 [mkRequest "kv" 100 1] (mkRequest "kv" 50 2)
                    [(canned_page 3 (repos_from 1 2), repos_from 1 2)]
                    ltac:(lia) ltac:(vm_compute; reflexivity)
                    ltac:(cbn [replies]; apply Forall2_cons_2;
                          [split; vm_compute; reflexivity|apply Forall2_nil_2]))
                 (JArr [])); [reflexivity|discriminate].
  - apply (proj2 (malformed_last_page
                    (scripted [JObj (canned_page 3 (repos_from 1 2)); JObj null_items])
                    "kv" 150 1 w0 [mkRequest "kv" 100 1] (mkRequest "kv" 50 2)
                    [(canned_page 3 (repos_from 1 2), repos_from 1 2)]
                    ltac:(lia) ltac:(vm_compute; reflexivity)
                    ltac:(cbn [replies]; apply Forall2_cons_2;
                          [split; vm_compute; reflexivity|apply Forall2_nil_2]))
                 null_items JNull);
      [reflexivity | vm_compute; reflexivity | reflexivity].
Defined.

Lemma honest_api_report_witness :
  ∃ l',
    (main (serve (repos 3)) "kv" 2 w0).1 = Ok tt ∧
    printed_report (main (serve (repos 3)) "kv" 2 w0).2
    = Some (json_dict "kv" 2 (JInt (Z.of_nat (length (repos 3)))) (JArr l')) ∧
    Forall2 trimmed (take (Z.to_nat 2) (repos 3)) l'.
Proof.
  apply (honest_api_report (repos 3) "kv" 2 w0); [lia | left; lia |].
  repeat (apply Forall_cons_2; [vm_compute; exact I|]). apply Forall_nil_2.
Defined.
